(** * Proton VPN GTK app: the signal-connect queue, the login flow, the
    general settings and the packaging script, embedded in Rocq.

    Each module follows one source file:
    - [App]       src/proton/vpn/app/gtk/app.py
    - [Login]     src/proton/vpn/app/gtk/widgets/login.py
    - [Settings]  src/proton/vpn/app/gtk/widgets/headerbar/menu/settings/general_settings.py
    - [Versions]  src/scripts/versions.py

    Python [str] values are sequences of Unicode code points, exceptions are
    explicit results, and the effects of a method on the toolkit (signals
    emitted, callbacks connected, controller calls) are recorded in the state
    the method returns. *)

From Stdlib Require Import NArith ZArith Ascii String.
From stdpp Require Import gmap strings list fin_maps.

(** ** Python values shared by the modules *)

Module Py.
Local Open Scope N_scope.

(** A [str] is the list of its code points. *)
Definition str := list N.

(** An ASCII literal of the source, as a [str]. *)
Definition lit (s : string) : str :=
  map N_of_ascii (list_ascii_of_string s).

Definition str_eqb (a b : str) : bool := bool_decide (a = b).

Inductive exn :=
| ValueError
| TypeError
| AttributeError
| AssertionError
| IndexError.

Inductive result (A : Type) :=
| Ok (a : A)
| Raise (e : exn).
Arguments Ok {A} a.
Arguments Raise {A} e.

Definition is_ok {A} (r : result A) : Prop :=
  match r with Ok _ => True | Raise _ => False end.

(** [s.startswith(p)] *)
Fixpoint startswith (p s : str) : bool :=
  match p, s with
  | [], _ => true
  | _ :: _, [] => false
  | a :: p', b :: s' => (a =? b) && startswith p' s'
  end.

(** [s.split(sep)] for a non-empty separator: the pieces between the
    non-overlapping occurrences of [sep], scanning from the left.  [skip]
    counts the characters of a separator still to be passed over, [cur] is
    the piece being read. *)
Fixpoint split_from (sep : str) (skip : nat) (cur s : str) : list str :=
  match s with
  | [] => [cur]
  | c :: s' =>
      match skip with
      | S k => split_from sep k cur s'
      | O =>
          if startswith sep s
          then cur :: split_from sep (length sep - 1) [] s'
          else split_from sep 0 (cur ++ [c]) s'
      end
  end.

Definition split (sep s : str) : list str := split_from sep 0 [] s.

(** [str.isspace] on one character: the code points CPython lists as
    whitespace. *)
Definition isspace (c : N) : bool :=
  ((9 <=? c) && (c <=? 13)) || ((28 <=? c) && (c <=? 32))
  || (c =? 133) || (c =? 160) || (c =? 5760)
  || ((8192 <=? c) && (c <=? 8202))
  || (c =? 8232) || (c =? 8233) || (c =? 8239) || (c =? 8287)
  || (c =? 12288).

(** [s.lstrip()], [s.rstrip()] and [s.strip()] without argument. *)
Fixpoint lstrip (s : str) : str :=
  match s with
  | c :: s' => if isspace c then lstrip s' else s
  | [] => []
  end.

Definition rstrip (s : str) : str := rev (lstrip (rev s)).

Definition strip (s : str) : str := rstrip (lstrip s).

(** [sep.join(pieces)] *)
Fixpoint join (sep : str) (pieces : list str) : str :=
  match pieces with
  | [] => []
  | [piece] => piece
  | piece :: rest => piece ++ sep ++ join sep rest
  end.

End Py.

Notation "'py' s" := (Py.lit s%string) (at level 10, s at level 9, only parsing).

(** ** app.py: the queue of signal-connect requests *)

Module App.
Import Py.

(** An object reachable from the main window: its attributes, and for an
    instance of [GObject.Object] its identity and the signals it has. *)
#[local] Unset Elimination Schemes.
Inductive pyobj :=
| GObject (oid : nat) (signals : list str) (attrs : list (str * pyobj))
| Plain (attrs : list (str * pyobj)).
#[local] Set Elimination Schemes.

Definition attrs_of (o : pyobj) : list (str * pyobj) :=
  match o with
  | GObject _ _ a => a
  | Plain a => a
  end.

Fixpoint assoc {A} (k : str) (l : list (str * A)) : option A :=
  match l with
  | [] => None
  | (k', v) :: l' => if str_eqb k k' then Some v else assoc k l'
  end.

(** [getattr(obj, name)] *)
Definition getattr (o : pyobj) (name : str) : result pyobj :=
  match assoc name (attrs_of o) with
  | Some v => Ok v
  | None => Raise AttributeError
  end.

(** The loop [for widget_path_segment in ...: obj = getattr(obj, ...)]. *)
Fixpoint follow (o : pyobj) (segments : list str) : result pyobj :=
  match segments with
  | [] => Ok o
  | seg :: rest =>
      match getattr o seg with
      | Ok o' => follow o' rest
      | Raise e => Raise e
      end
  end.

Definition callback := nat.
Definition request := (str * callback)%type.

(** A call [obj.connect(signal_name, callback)] that went through. *)
Record connection := Connection {
  conn_object : nat;
  conn_signal : str;
  conn_callback : callback
}.

(** [obj.connect(signal_name, callback)]: GObject raises [TypeError] on a
    signal name the object does not have. *)
Definition connect (oid : nat) (signals : list str) (signal_name : str)
    (cb : callback) : result connection :=
  if existsb (str_eqb signal_name) signals
  then Ok (Connection oid signal_name cb)
  else Raise TypeError.

(** The body of the loop of [_process_signal_connect_queue], after the
    request was popped. *)
Definition resolve (window : pyobj) (req : request) : result connection :=
  let '(signal_spec, cb) := req in
  match split (py "::") signal_spec with
  | [widget_path; signal_name] =>
      match follow window (split (py ".") widget_path) with
      | Raise e => Raise e
      | Ok (Plain _) => Raise AssertionError
      | Ok (GObject oid signals _) => connect oid signals signal_name cb
      end
  | _ => Raise ValueError
  end.

Record app := {
  window : option pyobj;
  signal_connect_queue : list request;
  connections : list connection;
  app_ready : nat
}.

(** [App.__init__] *)
Definition init : app :=
  {| window := None; signal_connect_queue := []; connections := [];
     app_ready := 0%nat |}.

Definition set_queue (q : list request) (a : app) : app :=
  {| window := window a; signal_connect_queue := q;
     connections := connections a; app_ready := app_ready a |}.

Definition add_connection (c : connection) (a : app) : app :=
  {| window := window a; signal_connect_queue := signal_connect_queue a;
     connections := connections a ++ [c]; app_ready := app_ready a |}.

(** [self.window] as the object the attribute walk starts from.  Both
    callers run the loop with the window set: [do_activate] right after it
    assigns the window, [queue_signal_connect] under [if self.window].  The
    [None] of a window that does not exist yet is given as an object
    without widget attributes; no call of the application walks from
    it. *)
Definition window_object (a : app) : pyobj :=
  match window a with
  | Some w => w
  | None => Plain []
  end.

(** [_process_signal_connect_queue]: [n] iterations, each popping the
    front of the queue.  The state is returned with the exception that
    ended the loop, if any. *)
Fixpoint process_loop (n : nat) (a : app) : app * option exn :=
  match n with
  | O => (a, None)
  | S n' =>
      match signal_connect_queue a with
      | [] => (a, Some IndexError)
      | req :: rest =>
          let a1 := set_queue rest a in
          match resolve (window_object a1) req with
          | Raise e => (a1, Some e)
          | Ok c => process_loop n' (add_connection c a1)
          end
      end
  end.

Definition _process_signal_connect_queue (a : app) : app * option exn :=
  process_loop (length (signal_connect_queue a)) a.

(** [queue_signal_connect] *)
Definition queue_signal_connect (signal_spec : str) (cb : callback)
    (a : app) : app * option exn :=
  let a1 := set_queue (signal_connect_queue a ++ [(signal_spec, cb)]) a in
  match window a1 with
  | Some _ => _process_signal_connect_queue a1
  | None => (a1, None)
  end.

(** [do_activate]; [main_window] is the object [MainWindow(self,
    self._controller)] builds.  The tray indicator and the calls that
    show the window leave the fields above alone. *)
Definition do_activate (main_window : pyobj) (a : app) : app * option exn :=
  let emit_app_ready (x : app) : app :=
    {| window := window x; signal_connect_queue := signal_connect_queue x;
       connections := connections x; app_ready := S (app_ready x) |} in
  match window a with
  | None =>
      let a1 := {| window := Some main_window;
                   signal_connect_queue := signal_connect_queue a;
                   connections := connections a;
                   app_ready := app_ready a |} in
      match _process_signal_connect_queue a1 with
      | (a2, None) => (emit_app_ready a2, None)
      | (a2, Some e) => (a2, Some e)
      end
  | Some _ => (emit_app_ready a, None)
  end.

(** Queueing a list of requests one after the other, stopping at the
    first exception. *)
Fixpoint queue_all (reqs : list request) (a : app) : app * option exn :=
  match reqs with
  | [] => (a, None)
  | (spec, cb) :: rest =>
      match queue_signal_connect spec cb a with
      | (a1, None) => queue_all rest a1
      | (a1, Some e) => (a1, Some e)
      end
  end.

(** The state after [conns] were connected and [rest] is what is left of
    the queue. *)
Definition progressed (rest : list request) (conns : list connection)
    (a : app) : app :=
  {| window := window a; signal_connect_queue := rest;
     connections := connections a ++ conns; app_ready := app_ready a |}.

(** The callbacks connected so far, in the order of the [connect] calls. *)
Definition connected_callbacks (a : app) : list callback :=
  map conn_callback (connections a).

(** The claim that every queued sequence is connected once and in order,
    and that a request made once the window exists is connected by the
    call itself, with nothing said about requests that do not resolve. *)
Definition fifo_connect_unconditional : Prop :=
  (forall (w : pyobj) (reqs : list request),
      exists a0 a1 e,
        queue_all reqs init = (a0, None)
        /\ do_activate w a0 = (a1, e)
        /\ connected_callbacks a1 = map snd reqs)
  /\ (forall (a : app) (w : pyobj) (spec : str) (cb : callback),
        window a = Some w ->
        signal_connect_queue a = [] ->
        connected_callbacks (queue_signal_connect spec cb a).1
        = connected_callbacks a ++ [cb]).

(** A small main window: [window.main_widget.login_widget] is a widget
    with the signal [user-logged-in], [window.application_name] is a plain
    Python value. *)
Definition sample_window : pyobj :=
  GObject 0 []
    [ (py "main_widget",
       GObject 1 [py "main-widget-ready"]
         [ (py "login_widget", GObject 2 [py "user-logged-in"] []) ]);
      (py "application_name", Plain []) ].

(** The signal spec that names the attributes [widget_path], one after the
    other, and the signal [signal_name]. *)
Definition signal_spec_of (widget_path : list str) (signal_name : str) : str :=
  join (py ".") widget_path ++ py "::" ++ signal_name.

(** A text without the character [c]. *)
Definition without (c : N) (text : str) : Prop := Forall (fun x => x <> c) text.

(** The exceptions the resolution of a request ends with. *)
Definition resolution_errors : list exn :=
  [ValueError; AttributeError; AssertionError; TypeError].

End App.

(** ** widgets/login.py: the login form, the 2FA form and their stack *)

Module Login.
Import Py.

(** The two children of the [Gtk.Stack]. *)
Inductive form :=
| login_form_child
| two_factor_auth_form_child.

(** The signals of the three widgets, with their arguments. *)
Inductive signal :=
| user_authenticated (two_factor_auth_required : bool)
| login_error
| two_factor_auth_successful
| session_expired
| user_logged_in.

(** Modelled from the spec: the result of the controller's calls, which
    are not in the sources at hand: [login(username, password) ->
    Future[AuthResult{authenticated, twofa_required}]] and
    [submit_2fa_code(code) -> Future[AuthResult]]. *)
Record AuthResult := {
  authenticated : bool;
  twofa_required : bool
}.

(** [future.result()]: a value, or the exception the call raised. *)
Inductive future :=
| Returns (r : AuthResult)
| Raises (e : exn).

(** The calls made on the controller. *)
Inductive controller_call :=
| login (username password : str)
| submit_2fa_code (code : str).

Record LoginForm := {
  error_message : str;
  username : str;
  password : str;
  login_button_sensitive : bool;
  login_spinner : bool
}.

Record TwoFactorAuthForm := {
  tfa_error_message : str;
  two_factor_auth_code : str;
  tfa_spinner : bool
}.

(** The [LoginWidget] with its two forms, the signals emitted so far and
    the calls the controller received. *)
Record LoginWidget := {
  active_form : option form;
  visible_child : option form;
  login_form : LoginForm;
  two_factor_auth_form : TwoFactorAuthForm;
  emitted : list signal;
  controller_calls : list controller_call
}.

(** *** LoginForm *)

Definition set_error_message (m : str) (f : LoginForm) : LoginForm :=
  {| error_message := m; username := username f; password := password f;
     login_button_sensitive := login_button_sensitive f;
     login_spinner := login_spinner f |}.

Definition set_login_spinner (b : bool) (f : LoginForm) : LoginForm :=
  {| error_message := error_message f; username := username f;
     password := password f;
     login_button_sensitive := login_button_sensitive f;
     login_spinner := b |}.

(** [_on_entry_changed] *)
Definition _on_entry_changed (f : LoginForm) : LoginForm :=
  let is_username_provided := (0 <? length (strip (username f)))%nat in
  let is_password_provided := (0 <? length (strip (password f)))%nat in
  {| error_message := error_message f; username := username f;
     password := password f;
     login_button_sensitive := is_username_provided && is_password_provided;
     login_spinner := login_spinner f |}.

(** The [username] setter: [Gtk.Entry.set_text] emits [changed], which
    runs [_on_entry_changed], when the text is a new one. *)
Definition set_username (text : str) (f : LoginForm) : LoginForm :=
  if str_eqb text (username f) then f
  else _on_entry_changed
         {| error_message := error_message f; username := text;
            password := password f;
            login_button_sensitive := login_button_sensitive f;
            login_spinner := login_spinner f |}.

(** The [password] setter, likewise. *)
Definition set_password (text : str) (f : LoginForm) : LoginForm :=
  if str_eqb text (password f) then f
  else _on_entry_changed
         {| error_message := error_message f; username := username f;
            password := text;
            login_button_sensitive := login_button_sensitive f;
            login_spinner := login_spinner f |}.

(** [LoginForm.reset]; the focus grabbed by the button is not part of the
    state. *)
Definition LoginForm_reset (f : LoginForm) : LoginForm :=
  set_password [] (set_username [] (set_error_message [] f)).

(** [LoginForm.__init__]: empty entries, the button insensitive, then
    [reset]. *)
Definition LoginForm_init : LoginForm :=
  LoginForm_reset
    {| error_message := []; username := []; password := [];
       login_button_sensitive := false; login_spinner := false |}.

(** *** TwoFactorAuthForm *)

Definition set_tfa_error_message (m : str) (f : TwoFactorAuthForm)
    : TwoFactorAuthForm :=
  {| tfa_error_message := m; two_factor_auth_code := two_factor_auth_code f;
     tfa_spinner := tfa_spinner f |}.

Definition set_two_factor_auth_code (c : str) (f : TwoFactorAuthForm)
    : TwoFactorAuthForm :=
  {| tfa_error_message := tfa_error_message f; two_factor_auth_code := c;
     tfa_spinner := tfa_spinner f |}.

Definition set_tfa_spinner (b : bool) (f : TwoFactorAuthForm)
    : TwoFactorAuthForm :=
  {| tfa_error_message := tfa_error_message f;
     two_factor_auth_code := two_factor_auth_code f; tfa_spinner := b |}.

(** [TwoFactorAuthForm.reset] *)
Definition TwoFactorAuthForm_reset (f : TwoFactorAuthForm)
    : TwoFactorAuthForm :=
  set_two_factor_auth_code [] (set_tfa_error_message [] f).

(** [TwoFactorAuthForm.__init__] *)
Definition TwoFactorAuthForm_init : TwoFactorAuthForm :=
  TwoFactorAuthForm_reset
    {| tfa_error_message := []; two_factor_auth_code := [];
       tfa_spinner := false |}.

(** *** LoginWidget *)

Definition with_login_form (g : LoginForm -> LoginForm) (w : LoginWidget)
    : LoginWidget :=
  {| active_form := active_form w; visible_child := visible_child w;
     login_form := g (login_form w);
     two_factor_auth_form := two_factor_auth_form w;
     emitted := emitted w; controller_calls := controller_calls w |}.

Definition with_two_factor_auth_form
    (g : TwoFactorAuthForm -> TwoFactorAuthForm) (w : LoginWidget)
    : LoginWidget :=
  {| active_form := active_form w; visible_child := visible_child w;
     login_form := login_form w;
     two_factor_auth_form := g (two_factor_auth_form w);
     emitted := emitted w; controller_calls := controller_calls w |}.

(** [self.emit(...)], before the handlers run. *)
Definition emit (sg : signal) (w : LoginWidget) : LoginWidget :=
  {| active_form := active_form w; visible_child := visible_child w;
     login_form := login_form w;
     two_factor_auth_form := two_factor_auth_form w;
     emitted := emitted w ++ [sg]; controller_calls := controller_calls w |}.

Definition call_controller (c : controller_call) (w : LoginWidget)
    : LoginWidget :=
  {| active_form := active_form w; visible_child := visible_child w;
     login_form := login_form w;
     two_factor_auth_form := two_factor_auth_form w;
     emitted := emitted w; controller_calls := controller_calls w ++ [c] |}.

(** [LoginWidget.__init__]; which child the stack shows before the first
    [display_form] is left to the toolkit. *)
Definition init : LoginWidget :=
  {| active_form := None; visible_child := None;
     login_form := LoginForm_init;
     two_factor_auth_form := TwoFactorAuthForm_init;
     emitted := []; controller_calls := [] |}.

(** [display_form] *)
Definition display_form (f : form) (w : LoginWidget) : LoginWidget :=
  let w1 :=
    {| active_form := Some f; visible_child := Some f;
       login_form := login_form w;
       two_factor_auth_form := two_factor_auth_form w;
       emitted := emitted w; controller_calls := controller_calls w |} in
  match f with
  | login_form_child => with_login_form LoginForm_reset w1
  | two_factor_auth_form_child =>
      with_two_factor_auth_form TwoFactorAuthForm_reset w1
  end.

(** [LoginWidget.reset] *)
Definition reset (w : LoginWidget) : LoginWidget :=
  display_form login_form_child w.

Definition _signal_user_logged_in (w : LoginWidget) : LoginWidget :=
  emit user_logged_in w.

Definition _on_user_authenticated (two_factor_auth_required : bool)
    (w : LoginWidget) : LoginWidget :=
  if negb two_factor_auth_required
  then _signal_user_logged_in w
  else display_form two_factor_auth_form_child w.

Definition _on_two_factor_auth_successful (w : LoginWidget) : LoginWidget :=
  _signal_user_logged_in w.

Definition _on_session_expired_during_2fa (w : LoginWidget) : LoginWidget :=
  display_form login_form_child w.

(** *** The handlers of the login form, with the handlers the
    [LoginWidget] connected to its signals *)

(** [LoginForm._signal_user_authenticated]: the emission runs
    [_on_user_authenticated], then the form resets itself. *)
Definition _signal_user_authenticated (two_factor_auth_required : bool)
    (w : LoginWidget) : LoginWidget :=
  with_login_form LoginForm_reset
    (_on_user_authenticated two_factor_auth_required
       (emit (user_authenticated two_factor_auth_required) w)).

(** [LoginForm._on_login_button_clicked] *)
Definition _on_login_button_clicked (w : LoginWidget) : LoginWidget :=
  let w1 := with_login_form (set_login_spinner true) w in
  call_controller
    (login (username (login_form w1)) (password (login_form w1))) w1.

(** [LoginForm._on_login_result], run from the idle callback once the
    future is done.  The exception returned is the one that leaves the
    method. *)
Definition _on_login_result (fut : future) (w : LoginWidget)
    : LoginWidget * option exn :=
  match fut with
  | Raises ValueError =>
      let w1 := with_login_form (set_error_message (py "Invalid username.")) w in
      let w2 := emit login_error w1 in
      (with_login_form (set_login_spinner false) w2, None)
  | Raises e => (with_login_form (set_login_spinner false) w, Some e)
  | Returns result =>
      let w1 := with_login_form (set_login_spinner false) w in
      if authenticated result
      then (_signal_user_authenticated (twofa_required result) w1, None)
      else
        let w2 :=
          with_login_form (set_error_message (py "Wrong credentials.")) w1 in
        (emit login_error w2, None)
  end.

(** [LoginForm._on_press_enter] *)
Definition _on_press_enter (w : LoginWidget) : LoginWidget :=
  if negb (login_button_sensitive (login_form w)) then w
  else _on_login_button_clicked w.

(** *** The handlers of the 2FA form *)

Definition _signal_two_factor_auth_successful (w : LoginWidget)
    : LoginWidget :=
  with_two_factor_auth_form TwoFactorAuthForm_reset
    (_on_two_factor_auth_successful (emit two_factor_auth_successful w)).

(** [TwoFactorAuthForm._on_2fa_submission_button_clicked] *)
Definition _on_2fa_submission_button_clicked (w : LoginWidget)
    : LoginWidget :=
  let w1 := with_two_factor_auth_form (set_tfa_spinner true) w in
  call_controller
    (submit_2fa_code (two_factor_auth_code (two_factor_auth_form w1))) w1.

(** [TwoFactorAuthForm._on_2fa_submission_result] *)
Definition _on_2fa_submission_result (fut : future) (w : LoginWidget)
    : LoginWidget * option exn :=
  match fut with
  | Raises e => (with_two_factor_auth_form (set_tfa_spinner false) w, Some e)
  | Returns result =>
      let w1 := with_two_factor_auth_form (set_tfa_spinner false) w in
      if negb (authenticated result) then
        let w2 :=
          with_two_factor_auth_form
            (set_tfa_error_message (py "Session expired. Please login again."))
            w1 in
        (_on_session_expired_during_2fa (emit session_expired w2), None)
      else if twofa_required result then
        (with_two_factor_auth_form
           (set_tfa_error_message (py "Wrong 2FA code.")) w1, None)
      else (_signal_two_factor_auth_successful w1, None)
  end.

(** *** What can happen to the widget *)

Inductive event :=
| username_changed (text : str)
| password_changed (text : str)
| two_factor_auth_code_changed (text : str)
| username_enter
| password_enter
| submit_login
| login_done (fut : future)
| submit_two_factor_auth
| two_factor_auth_done (fut : future)
| widget_reset.

(** One event of the main loop; an exception leaving a handler is printed
    by the toolkit and the loop goes on with the state reached. *)
Definition step (ev : event) (w : LoginWidget) : LoginWidget :=
  match ev with
  | username_changed text => with_login_form (set_username text) w
  | password_changed text => with_login_form (set_password text) w
  | two_factor_auth_code_changed text =>
      with_two_factor_auth_form (set_two_factor_auth_code text) w
  | username_enter => _on_press_enter w
  | password_enter => _on_press_enter w
  | submit_login => _on_login_button_clicked w
  | login_done fut => (_on_login_result fut w).1
  | submit_two_factor_auth => _on_2fa_submission_button_clicked w
  | two_factor_auth_done fut => (_on_2fa_submission_result fut w).1
  | widget_reset => reset w
  end.

Inductive reachable : LoginWidget -> Prop :=
| reachable_init : reachable init
| reachable_step (ev : event) (w : LoginWidget) :
    reachable w -> reachable (step ev w).

Definition run (evs : list event) (w : LoginWidget) : LoginWidget :=
  fold_left (fun w ev => step ev w) evs w.

(** The claim that a malformed username, which shows as a [ValueError]
    of the login future, is reported with no call of the controller for
    that submission. *)
Definition malformed_username_without_controller : Prop :=
  forall w : LoginWidget,
    let w' := (_on_login_result (Raises ValueError)
                 (_on_login_button_clicked w)).1 in
    error_message (login_form w') = py "Invalid username."
    /\ emitted w' = emitted w ++ [login_error]
    /\ controller_calls w' = controller_calls w.

(** The button is sensitive exactly when both stripped texts are
    non-empty. *)
Definition button_follows_entries (f : LoginForm) : Prop :=
  login_button_sensitive f
  = (0 <? length (strip (username f)))%nat
    && (0 <? length (strip (password f)))%nat.

(** The events on which the widget reports a login: a result that is
    authenticated and asks for no second factor. *)
Definition logs_in (ev : event) : bool :=
  match ev with
  | login_done (Returns r) | two_factor_auth_done (Returns r) =>
      authenticated r && negb (twofa_required r)
  | _ => false
  end.

End Login.

(** ** widgets/login.py: the password entry *)

Module PasswordEntry.

(** The two icons loaded by [__init__]. *)
Inductive pixbuf :=
| _hide_pixbuff
| _show_pixbuff.

(** The entry: whether its text is shown, and its secondary icon. *)
Record PasswordEntry := {
  visibility : bool;
  secondary_icon : pixbuf;
  icon_activatable : bool
}.

(** [PasswordEntry.__init__] *)
Definition init : PasswordEntry :=
  {| visibility := false; secondary_icon := _show_pixbuff;
     icon_activatable := true |}.

(** [_on_change_password_visibility_icon_press] *)
Definition _on_change_password_visibility_icon_press (e : PasswordEntry)
    : PasswordEntry :=
  let is_text_visible := visibility e in
  {| visibility := negb is_text_visible;
     secondary_icon :=
       if is_text_visible then _show_pixbuff else _hide_pixbuff;
     icon_activatable := icon_activatable e |}.

(** The entry after [n] presses of the icon. *)
Definition pressed (n : nat) : PasswordEntry :=
  Nat.iter n _on_change_password_visibility_icon_press init.

End PasswordEntry.

(** ** settings/general_settings.py: the setters of the configuration *)

Module Settings.
Import Py.

(** The values the attributes of the configuration take. *)
Inductive value :=
| VNone
| VStr (s : str)
| VList (l : list str).

(** The uses of the [app_configuration] property of the controller. *)
Inductive access :=
| configuration_read
| configuration_written (app_config : gmap string value).

(** Modelled from the spec: the [AppConfiguration] object and the
    [app_configuration] property of the [Controller], which are not in the
    sources at hand.  The spec gives the configuration as a record with the
    fields [connect_at_app_startup] (optional server code) and
    [tray_pinned_servers] (list of server codes), fetched and reassigned as
    a whole.  It is kept as the map from attribute names to values, so that
    any further attribute is covered, and the controller records each use
    of the property. *)
Record Controller := {
  app_configuration : gmap string value;
  accesses : list access
}.

(** [self._controller.app_configuration], read. *)
Definition get_app_configuration (c : Controller)
    : gmap string value * Controller :=
  (app_configuration c,
   {| app_configuration := app_configuration c;
      accesses := accesses c ++ [configuration_read] |}).

(** [self._controller.app_configuration = app_config] *)
Definition set_app_configuration (app_config : gmap string value)
    (c : Controller) : Controller :=
  {| app_configuration := app_config;
     accesses := accesses c ++ [configuration_written app_config] |}.

(** The [connect_at_app_startup] setter. *)
Definition set_connect_at_app_startup (newvalue : value) (c : Controller)
    : Controller :=
  let '(app_config, c1) := get_app_configuration c in
  let app_config := <["connect_at_app_startup"%string := newvalue]> app_config in
  set_app_configuration app_config c1.

Section WithUpper.

(** [str.upper], the Unicode case mapping of the interpreter. *)
Variable upper : str -> str.

(** The loop of the [tray_pinned_servers] setter over
    [newvalue.split(",")]. *)
Fixpoint clean_servers (pieces : list str) : list str :=
  match pieces with
  | [] => []
  | pinned_server :: rest =>
      let cleaned_pinned_server := upper (strip pinned_server) in
      match cleaned_pinned_server with
      | [] => clean_servers rest
      | _ :: _ => cleaned_pinned_server :: clean_servers rest
      end
  end.

(** The [tray_pinned_servers] setter. *)
Definition set_tray_pinned_servers (newvalue : str) (c : Controller)
    : Controller :=
  let server_list := clean_servers (split (py ",") newvalue) in
  let '(app_config, c1) := get_app_configuration c in
  let app_config :=
    <["tray_pinned_servers"%string := VList server_list]> app_config in
  set_app_configuration app_config c1.

(** [on_focus_outside_entry] of the auto-connect row. *)
Definition on_focus_outside_connect_entry (text : str) (c : Controller)
    : Controller :=
  let newvalue := upper (strip text) in
  set_connect_at_app_startup
    (if str_eqb newvalue (py "OFF") then VNone else VStr newvalue) c.

End WithUpper.

(** The [connect_at_app_startup] getter: the property of the controller is
    read, and [None] is shown as [Off]. *)
Definition get_connect_at_app_startup (c : Controller)
    : result value * Controller :=
  let '(app_config, c1) := get_app_configuration c in
  match app_config !! "connect_at_app_startup"%string with
  | None => (Raise AttributeError, c1)
  | Some VNone => (Ok (VStr (py "Off")), c1)
  | Some connect_at_app_startup => (Ok connect_at_app_startup, c1)
  end.

(** The [tray_pinned_servers] getter: [', '.join(tray_pinned_servers)].
    A string is joined character by character, [None] cannot be joined. *)
Definition get_tray_pinned_servers (c : Controller)
    : result str * Controller :=
  let '(app_config, c1) := get_app_configuration c in
  match app_config !! "tray_pinned_servers"%string with
  | None => (Raise AttributeError, c1)
  | Some (VList tray_pinned_servers) =>
      (Ok (join (py ", ") tray_pinned_servers), c1)
  | Some (VStr s) => (Ok (join (py ", ") (map (fun ch => [ch]) s)), c1)
  | Some VNone => (Raise TypeError, c1)
  end.

(** A server code as the setter stores it: not empty, without a comma,
    and left alone by [strip] and by [upper]. *)
Definition clean_code (upper : str -> str) (code : str) : Prop :=
  code <> [] /\ Forall (fun ch => ch <> 44%N) code
  /\ strip code = code /\ upper code = code.

(** [str.upper] on ASCII text: the letters [a] to [z] become [A] to [Z]. *)
Definition ascii_upper (text : str) : str :=
  map (fun ch => if ((97 <=? ch) && (ch <=? 122))%N then (ch - 32)%N else ch)
      text.

(** An auto-connect value as [on_focus_outside_entry] stores it: [None],
    or a text left alone by [strip] and by [upper] that is not [OFF]. *)
Definition normal_startup (upper : str -> str) (v : value) : Prop :=
  match v with
  | VNone => True
  | VStr s => strip s = s /\ upper s = s /\ s <> py "OFF"
  | VList _ => False
  end.

(** A text made of whitespace and commas only. *)
Definition blank (text : str) : Prop :=
  Forall (fun ch => isspace ch = true \/ ch = 44%N) text.

End Settings.

(** ** scripts/versions.py: version strings and the validation of the
    manifest *)

Module Versions.
Local Open Scope N_scope.

Abbreviation str := Py.str.

(** *** The regular expressions of the script

    The patterns use one-character classes, [+] on a class, literal text,
    alternatives, an optional group and the anchors.  [re.match] tries the
    alternatives of a backtracking matcher in order of preference (the
    longest repetition first, the left alternative first, the optional part
    present first) and returns the first match that starts at position 0. *)

Inductive regex :=
| Char (p : N -> bool)
| Plus (p : N -> bool)
| Lit (text : str)
| Seq (r1 r2 : regex)
| Alt (r1 r2 : regex)
| Opt (r : regex)
| Group (i : nat) (r : regex)
| Bol
| Eol.

(** The groups that took part in the match, the latest capture first. *)
Definition groups := list (nat * str).

Fixpoint group (i : nat) (g : groups) : option str :=
  match g with
  | [] => None
  | (j, text) :: g' => if (i =? j)%nat then Some text else group i g'
  end.

(** Where [$] matches: at the end of the string, and before a newline that
    ends it. *)
Definition at_end (s : str) : bool :=
  match s with
  | [] => true
  | [c] => c =? 10
  | _ => false
  end.

Section Matcher.

Context {R : Type}.

(** Zero or more characters of the class [p], as many as possible first;
    [k] is what remains to be matched after them. *)
Fixpoint greedy (p : N -> bool) (pos : nat) (s : str)
    (k : nat -> str -> option R) : option R :=
  match s with
  | c :: s' =>
      if p c then
        match greedy p (S pos) s' k with
        | Some m => Some m
        | None => k pos s
        end
      else k pos s
  | [] => k pos s
  end.

Fixpoint matches (r : regex) (pos : nat) (s : str) (g : groups)
    (k : nat -> str -> groups -> option R) : option R :=
  match r with
  | Char p =>
      match s with
      | c :: s' => if p c then k (S pos) s' g else None
      | [] => None
      end
  | Plus p =>
      match s with
      | c :: s' =>
          if p c then greedy p (S pos) s' (fun pos' s'' => k pos' s'' g)
          else None
      | [] => None
      end
  | Lit text =>
      if Py.startswith text s
      then k (pos + length text)%nat (drop (length text) s) g
      else None
  | Seq r1 r2 =>
      matches r1 pos s g (fun pos' s' g' => matches r2 pos' s' g' k)
  | Alt r1 r2 =>
      match matches r1 pos s g k with
      | Some m => Some m
      | None => matches r2 pos s g k
      end
  | Opt r1 =>
      match matches r1 pos s g k with
      | Some m => Some m
      | None => k pos s g
      end
  | Group i r1 =>
      matches r1 pos s g
        (fun pos' s' g' => k pos' s' ((i, take (pos' - pos) s) :: g'))
  | Bol => if (pos =? 0)%nat then k pos s g else None
  | Eol => if at_end s then k pos s g else None
  end.

End Matcher.

(** [re.match(pattern, s)]: the end of the match and its groups. *)
Definition re_match (r : regex) (s : str) : option (nat * groups) :=
  matches r 0 s [] (fun pos _ g => Some (pos, g)).

(** The classes of the patterns. *)
Definition digit (c : N) : bool := (48 <=? c) && (c <=? 57).
Definition lower (c : N) : bool := (97 <=? c) && (c <=? 122).
Definition letter (c : N) : bool := lower c || ((65 <=? c) && (c <=? 90)).
Definition any (c : N) : bool := negb (c =? 10).
Definition word (c : N) : bool := letter c || (c =? 95) || digit c.
Definition local_part (c : N) : bool :=
  letter c || (c =? 43) || (c =? 95) || (c =? 45) || (c =? 46) || digit c.

(** [VERSIONS_RE = re.compile("([0-9]+.[0-9]+.[0-9]+)([a-z]+[0-9]+)?")] *)
Definition VERSIONS_RE : regex :=
  Seq (Group 1 (Seq (Plus digit) (Seq (Char any) (Seq (Plus digit)
                 (Seq (Char any) (Plus digit))))))
      (Opt (Group 2 (Seq (Plus lower) (Plus digit)))).

(** ["[a-zA-Z]+ [a-zA-Z]+"] *)
Definition AUTHOR_RE : regex :=
  Seq (Plus letter) (Seq (Lit (py " ")) (Plus letter)).

(** ["^(low|medium|urgent)$"] *)
Definition URGENCY_RE : regex :=
  Seq Bol (Seq (Group 1 (Alt (Lit (py "low"))
                          (Alt (Lit (py "medium")) (Lit (py "urgent")))))
               Eol).

(** ["^(unstable|stable)$"] *)
Definition STABILITY_RE : regex :=
  Seq Bol (Seq (Group 1 (Alt (Lit (py "unstable")) (Lit (py "stable")))) Eol).

(** [r"[a-zA-Z+_\-.0-9]+@[a-zA-Z_0-9]+\.[a-zA-Z_0-9]+"] *)
Definition EMAIL_RE : regex :=
  Seq (Plus local_part) (Seq (Lit (py "@")) (Seq (Plus word)
    (Seq (Lit (py ".")) (Plus word)))).

(** *** Exceptions and results *)

(** The values of a release loaded from the manifest. *)
#[local] Unset Elimination Schemes.
Inductive value :=
| VStr (s : str)
| VInt (z : Z)
| VBool (b : bool)
| VNone
| VList (l : list value).
#[local] Set Elimination Schemes.

(** What the messages of the [ValueError]s of the script are about. *)
Inductive message :=
| Invalid_version (version : str)
| Unrecognised_field (field : str)
| Incorrect_value (field : str) (v : value).

Inductive exn :=
| ValueError (msg : message)
| TypeError.

Inductive result (A : Type) :=
| Ok (a : A)
| Raise (e : exn).
Arguments Ok {A} a.
Arguments Raise {A} e.

(** *** rebuild_version *)

Definition rebuild_version (version delim : str) : result str :=
  match re_match VERSIONS_RE version with
  | None => Raise (ValueError (Invalid_version version))
  | Some (_, version_elems) =>
      let version := default [] (group 1 version_elems) in
      match group 2 version_elems with
      | Some (c :: prelease) => Ok (version ++ delim ++ c :: prelease)
      | _ => Ok version
      end
  end.

(** *** validate_versions *)

(** A release: the items of the dictionary, in its order. *)
Definition release := list (str * value).

(** [re.match(pattern, v) is not None]; [re.match] raises [TypeError] on a
    value that is not a string. *)
Definition re_matches (r : regex) (v : value) : result bool :=
  match v with
  | VStr s => Ok (bool_decide (is_Some (re_match r s)))
  | _ => Raise TypeError
  end.

Definition is_str (v : value) : bool :=
  match v with
  | VStr _ => true
  | _ => false
  end.

Section WithStrptime.

(** Whether [datetime.datetime.strptime(s, '%Y/%m/%d %H:%M')] returns, for
    a string [s]; it raises [ValueError] when it does not. *)
Variable strptime : str -> bool.

(** [validate_date_time]: the [ValueError] of [strptime] is caught, the
    [TypeError] it raises on a value that is not a string is not. *)
Definition validate_date_time (v : value) : result bool :=
  match v with
  | VStr s => Ok (strptime s)
  | _ => Raise TypeError
  end.

(** [NECESSARY_FIELDS] *)
Definition NECESSARY_FIELDS : list (str * (value -> result bool)) :=
  [ (py "version", fun v => re_matches VERSIONS_RE v);
    (py "time", fun v => validate_date_time v);
    (py "author", fun v => re_matches AUTHOR_RE v);
    (py "urgency", fun v => re_matches URGENCY_RE v);
    (py "stability", fun v => re_matches STABILITY_RE v);
    (py "description", fun v =>
       match v with
       | VList l => Ok (forallb is_str l)
       | _ => Ok false
       end);
    (py "email", fun v => re_matches EMAIL_RE v) ].

(** [NECESSARY_FIELDS.get(field)] *)
Fixpoint get {A} (d : list (str * A)) (field : str) : option A :=
  match d with
  | [] => None
  | (k, v) :: d' => if Py.str_eqb field k then Some v else get d' field
  end.

(** The inner loop of [validate_versions], over the items of a release. *)
Fixpoint validate_release (items : release) : result unit :=
  match items with
  | [] => Ok tt
  | (field, value) :: rest =>
      match get NECESSARY_FIELDS field with
      | None => Raise (ValueError (Unrecognised_field field))
      | Some validator =>
          match validator value with
          | Raise e => Raise e
          | Ok false => Raise (ValueError (Incorrect_value field value))
          | Ok true => validate_release rest
          end
      end
  end.

Fixpoint validate_versions (versions : list release) : result unit :=
  match versions with
  | [] => Ok tt
  | release :: rest =>
      match validate_release release with
      | Raise e => Raise e
      | Ok _ => validate_versions rest
      end
  end.

End WithStrptime.

(** The fields whose validator gives the value to [re.match] or to
    [strptime]. *)
Definition STRING_FIELDS : list str :=
  [py "version"; py "time"; py "author"; py "urgency"; py "stability";
   py "email"].

(** The value of an item is a string if its field is one of those. *)
Definition string_valued (item : str * value) : bool :=
  negb (existsb (Py.str_eqb item.1) STRING_FIELDS) || is_str item.2.

(** The item has a recognised field and its validator returns [True]. *)
Definition item_passes (strptime : str -> bool) (item : str * value) : Prop :=
  exists validator,
    get (NECESSARY_FIELDS strptime) item.1 = Some validator
    /\ validator item.2 = Ok true.

(** The item that makes validation raise: its field is not recognised, or
    it is a [time] that is not a string [strptime] accepts. *)
Definition item_offends (strptime : str -> bool) (item : str * value) : Prop :=
  get (NECESSARY_FIELDS strptime) item.1 = None
  \/ (item.1 = py "time"
      /\ forall s, item.2 = VStr s -> strptime s = false).

(** The claim that such an item always ends validation with a
    [ValueError]. *)
Definition offending_item_raises_ValueError : Prop :=
  forall (strptime : str -> bool) (versions : list release)
         (release : release) (item : str * value),
    In release versions -> In item release -> item_offends strptime item ->
    exists msg, validate_versions strptime versions = Raise (ValueError msg).

(** What an exception of [validate_versions] is about: an item of a
    release. *)
Definition raised_by (e : exn) (item : str * value) : Prop :=
  e = ValueError (Unrecognised_field item.1)
  \/ e = ValueError (Incorrect_value item.1 item.2)
  \/ (e = TypeError /\ string_valued item = false).

(** *** [strptime] on ASCII digits

    The format ['%Y/%m/%d %H:%M'] as the regular expression the library
    compiles it to, the check that the whole string was used, and the
    check of the date.  It serves for the examples; the theorems hold for
    any [strptime]. *)

Definition in_range (lo hi : N) (c : N) : bool := (lo <=? c) && (c <=? hi).

Definition FORMAT_RE : regex :=
  let d := Char digit in
  let ch (c : N) := Char (N.eqb c) in
  let month :=
    Alt (Seq (ch 49) (Char (in_range 48 50)))
      (Alt (Seq (ch 48) (Char (in_range 49 57))) (Char (in_range 49 57))) in
  let day :=
    Alt (Seq (ch 51) (Char (in_range 48 49)))
      (Alt (Seq (Char (in_range 49 50)) d)
         (Alt (Seq (ch 48) (Char (in_range 49 57)))
            (Alt (Char (in_range 49 57))
               (Seq (ch 32) (Char (in_range 49 57)))))) in
  let hour :=
    Alt (Seq (ch 50) (Char (in_range 48 51)))
      (Alt (Seq (Char (in_range 48 49)) d) d) in
  let minute := Alt (Seq (Char (in_range 48 53)) d) d in
  Seq (Group 1 (Seq d (Seq d (Seq d d))))
    (Seq (Lit (py "/")) (Seq (Group 2 month)
      (Seq (Lit (py "/")) (Seq (Group 3 day)
        (Seq (Plus Py.isspace) (Seq (Group 4 hour)
          (Seq (Lit (py ":")) (Group 5 minute)))))))).

(** [int(text)] for the text of a group: digits, after an optional
    space. *)
Definition to_number (text : str) : N :=
  fold_left (fun acc c => if digit c then 10 * acc + (c - 48) else acc) text 0.

Definition is_leap (year : N) : bool :=
  ((year mod 4 =? 0) && negb (year mod 100 =? 0)) || (year mod 400 =? 0).

Definition days_in_month (year month : N) : N :=
  if month =? 2 then (if is_leap year then 29 else 28)
  else if (month =? 4) || (month =? 6) || (month =? 9) || (month =? 11)
       then 30 else 31.

Definition strptime_ascii (s : str) : bool :=
  match re_match FORMAT_RE s with
  | None => false
  | Some (stop, g) =>
      let year := to_number (default [] (group 1 g)) in
      let month := to_number (default [] (group 2 g)) in
      let day := to_number (default [] (group 3 g)) in
      (stop =? length s)%nat && (1 <=? year)
      && (day <=? days_in_month year month)
  end.

(** A pattern without capturing groups. *)
Fixpoint no_group (r : regex) : bool :=
  match r with
  | Group _ _ => false
  | Seq r1 r2 | Alt r1 r2 => no_group r1 && no_group r2
  | Opt r1 => no_group r1
  | _ => true
  end.

(** The repetition of the class [p] cannot go on into [rest]. *)
Definition not_next (p : N -> bool) (rest : str) : Prop :=
  match rest with
  | [] => True
  | c :: _ => p c = false
  end.

(** A version of the usual shape: three runs of digits with two
    separators that are not digits. *)
Record dotted := {
  major : str;
  sep1 : N;
  minor : str;
  sep2 : N;
  patch : str
}.

Definition dotted_text (d : dotted) : str :=
  major d ++ sep1 d :: minor d ++ sep2 d :: patch d.

Definition digits (s : str) : Prop := s <> [] /\ forallb digit s = true.

Definition well_formed (d : dotted) : Prop :=
  digits (major d) /\ digits (minor d) /\ digits (patch d)
  /\ any (sep1 d) = true /\ digit (sep1 d) = false
  /\ any (sep2 d) = true /\ digit (sep2 d) = false.

End Versions.

(** ** scripts/versions.py: the builders of the changelogs *)

Module Changelog.
Import Versions.
Local Open Scope N_scope.

(** What ends a builder: the [KeyError] of a missing field, the
    [IndexError] of an empty list of versions, the [ValueError] of
    [strptime], the exception of [rebuild_version] or a [TypeError], an
    exception of [template.format], the [UnicodeEncodeError] of a [print]
    to the file, and the exception of [open]. *)
Inductive failure :=
| KeyError (key : str)
| IndexError
| TimeError (time : str)
| Raised (e : exn)
| TemplateError
| UnicodeEncodeError
| OpenError.

Inductive outcome (A : Type) :=
| Done (a : A)
| Failed (f : failure).
Arguments Done {A} a.
Arguments Failed {A} f.

Definition bind {A B : Type} (o : outcome A) (k : A -> outcome B)
    : outcome B :=
  match o with
  | Done a => k a
  | Failed f => Failed f
  end.

Notation "x <- o ;; k" := (bind o (fun x => k))
  (at level 100, o at next level, right associativity).

Definition newline : str := [10].

(** A surrogate code point, [U+D800] to [U+DFFF]: a [str] may hold one on
    its own, and UTF-8 does not encode it. *)
Definition surrogate (c : N) : bool := (55296 <=? c) && (c <=? 57343).

(** [text.encode("utf-8")] does not raise. *)
Definition encodable (text : str) : bool :=
  forallb (fun c => negb (surrogate c)) text.

(** [print(text, file=outfile)], the file being opened with
    [encoding="utf-8"]: the text and a newline come behind what was
    [written]; a text that cannot be encoded raises [UnicodeEncodeError]
    and nothing of it is written.  The file system is taken to accept
    what is written to a file it opened. *)
Definition print (text : str) (written : str) : outcome str :=
  if encodable text then Done (written ++ text ++ newline)
  else Failed UnicodeEncodeError.

Section Builders.

(** [datetime.datetime.strptime(text, '%Y/%m/%d %H:%M')], [None] for its
    [ValueError]; [dt.strftime(format)]; and [str(v)] for a value that is
    not a string, as [str.format] writes it. *)
Variable datetime : Type.
Variable strptime : str -> option datetime.
Variable strftime : datetime -> str -> str.
Variable str_of : value -> str.

(** [release[key]] *)
Definition getitem (release : release) (key : str) : outcome value :=
  match get release key with
  | Some v => Done v
  | None => Failed (KeyError key)
  end.

(** A field of the release as [template.format] writes it, the release
    being given as keyword arguments. *)
Definition format_field (release : release) (key : str) : outcome str :=
  v <- getitem release key ;;
  Done (match v with VStr s => s | _ => str_of v end).

Definition text_of (v : value) : str :=
  match v with
  | VStr s => s
  | _ => []
  end.

(** [[bullet + i for i in description]]: a list of strings item by item,
    a string character by character; anything else raises [TypeError]. *)
Definition bulleted (bullet : str) (description : value)
    : outcome (list str) :=
  match description with
  | VList items =>
      if forallb is_str items
      then Done (map (fun i => bullet ++ text_of i) items)
      else Failed (Raised TypeError)
  | VStr s => Done (map (fun ch => bullet ++ [ch]) s)
  | _ => Failed (Raised TypeError)
  end.

(** [release["description"] = "\n".join([bullet + i for i in
    release["description"]])] *)
Definition description_text (bullet : str) (release : release)
    : outcome str :=
  description <- getitem release (py "description") ;;
  lines <- bulleted bullet description ;;
  Done (Py.join newline lines).

(** [rebuild_version(release["version"], delim=delim)] *)
Definition version_text (delim : str) (release : release) : outcome str :=
  version <- getitem release (py "version") ;;
  match version with
  | VStr s =>
      match rebuild_version s delim with
      | Ok rebuilt => Done rebuilt
      | Raise e => Failed (Raised e)
      end
  | _ => Failed (Raised TypeError)
  end.

(** [datetime.datetime.strptime(release["time"], '%Y/%m/%d %H:%M')
    .strftime(format)] *)
Definition time_text (format : str) (release : release) : outcome str :=
  time <- getitem release (py "time") ;;
  match time with
  | VStr s =>
      match strptime s with
      | Some dt => Done (strftime dt format)
      | None => Failed (TimeError s)
      end
  | _ => Failed (Raised TypeError)
  end.

(** The body of the loop of [build_mkd], up to
    [MARKDOWN_TEMPLATE.format]: the text that is printed for a release. *)
Definition mkd_entry (release : release) : outcome str :=
  description <- description_text (py "- ") release ;;
  version <- version_text (py "-") release ;;
  time <- time_text (py "%Y-%m-%d") release ;;
  Done (py "## [" ++ version ++ py "] - " ++ time ++ newline
        ++ description ++ newline).

(** The body of the loop of [build_deb], up to
    [DEB_CHANGELOG_TEMPLATE.format]. *)
Definition deb_entry (name : str) (release : release) : outcome str :=
  description <- description_text (py "  * ") release ;;
  version <- version_text (py "~") release ;;
  time <- time_text (py "%a, %d %b %Y %H:%M:00") release ;;
  stability <- format_field release (py "stability") ;;
  urgency <- format_field release (py "urgency") ;;
  author <- format_field release (py "author") ;;
  email <- format_field release (py "email") ;;
  Done (name ++ py " (" ++ version ++ py ") " ++ stability
        ++ py "; urgency=" ++ urgency ++ newline ++ newline
        ++ description ++ newline ++ newline
        ++ py " -- " ++ author ++ py " <" ++ email ++ py ">  " ++ time
        ++ newline).

(** The body of the loop of [build_rpm], up to
    [changelog_template.format]. *)
Definition rpm_entry (release : release) : outcome str :=
  description <- description_text (py "- ") release ;;
  version <- version_text (py "~") release ;;
  time <- time_text (py "%a %b %d %Y") release ;;
  author <- format_field release (py "author") ;;
  email <- format_field release (py "email") ;;
  Done (py "* " ++ time ++ py " " ++ author ++ py " <" ++ email ++ py "> "
        ++ version ++ newline ++ description).

(** The loop over the releases: the entry of each release is printed,
    and after it the empty line of [print(file=outfile)] where the loop
    has one.  The result is the text in the file and what ended the
    loop. *)
Fixpoint write_entries (entry : release -> outcome str) (blank_line : bool)
    (versions : list release) (written : str) : str * option failure :=
  match versions with
  | [] => (written, None)
  | release :: rest =>
      match (text <- entry release ;; print text written) with
      | Done written' =>
          write_entries entry blank_line rest
            (if blank_line then written' ++ newline else written')
      | Failed f => (written, Some f)
      end
  end.

(** [build_mkd]; [writable] tells whether [open(outpath, "w",
    encoding="utf-8")] returns the file.  The result is the text of the
    file when the [with] block is left, [None] for a file that was not
    opened, and the exception that ended the call.  The title and the empty
    line behind it are ASCII. *)
Definition build_mkd (writable : bool) (versions : list release)
    : option str * option failure :=
  if writable then
    let '(written, f) :=
      write_entries mkd_entry false versions
        (py "# Changelog (autogenerated)" ++ newline ++ newline) in
    (Some written, f)
  else (None, Some OpenError).

(** [build_deb] *)
Definition build_deb (writable : bool) (versions : list release)
    (name : str) : option str * option failure :=
  if writable then
    let '(written, f) := write_entries (deb_entry name) false versions [] in
    (Some written, f)
  else (None, Some OpenError).

(** [build_rpm]; [render upstream_version version] is
    the header [template.format] makes of the local variables, [None] when
    it raises. *)
Definition build_rpm (render : value -> str -> option str)
    (writable : bool) (versions : list release)
    : option str * option failure :=
  match versions with
  | [] => (None, Some IndexError)
  | first :: _ =>
      match getitem first (py "version") with
      | Failed f => (None, Some f)
      | Done upstream_version =>
          match version_text (py "~") first with
          | Failed f => (None, Some f)
          | Done version =>
              if writable then
                match render upstream_version version with
                | None => (Some [], Some TemplateError)
                | Some header =>
                    match print header [] with
                    | Failed f => (Some [], Some f)
                    | Done written =>
                        let '(written', f) :=
                          write_entries rpm_entry true versions written in
                        (Some written', f)
                    end
                end
              else (None, Some OpenError)
          end
      end
  end.

(** The releases have the field [key]. *)
Definition all_have (key : str) (versions : list release) : Prop :=
  Forall (fun release => get release key <> None) versions.

End Builders.

(** *** A calendar for the examples: [strptime] on ASCII digits and
    [strftime] in the C locale *)

Record date_time := {
  year : N;
  month : N;
  day : N;
  hour : N;
  minute : N
}.

Definition parse_ascii (s : str) : option date_time :=
  match re_match FORMAT_RE s with
  | None => None
  | Some (stop, g) =>
      let number i := to_number (default [] (group i g)) in
      if (stop =? length s)%nat && (1 <=? number 1%nat)
         && (number 3%nat <=? days_in_month (number 1%nat) (number 2%nat))
      then Some {| year := number 1%nat; month := number 2%nat;
                   day := number 3%nat; hour := number 4%nat;
                   minute := number 5%nat |}
      else None
  end.

Fixpoint decimal_digits (fuel : nat) (n : N) (acc : str) : str :=
  match fuel with
  | O => acc
  | S fuel' =>
      let acc' := (48 + n mod 10) :: acc in
      if n <? 10 then acc' else decimal_digits fuel' (n / 10) acc'
  end.

Definition decimal (n : N) : str := decimal_digits 20 n [].

Definition two_digits (n : N) : str := [48 + n / 10; 48 + n mod 10].

Definition weekday_name (dt : date_time) : str :=
  let m := if month dt <? 3 then month dt + 12 else month dt in
  let y := if month dt <? 3 then year dt - 1 else year dt in
  let h := (day dt + 13 * (m + 1) / 5 + y mod 100 + (y mod 100) / 4
            + (y / 100) / 4 + 5 * (y / 100)) mod 7 in
  nth (N.to_nat h)
      [py "Sat"; py "Sun"; py "Mon"; py "Tue"; py "Wed"; py "Thu"; py "Fri"]
      [].

Definition month_name (dt : date_time) : str :=
  nth (N.to_nat (month dt - 1))
      [py "Jan"; py "Feb"; py "Mar"; py "Apr"; py "May"; py "Jun";
       py "Jul"; py "Aug"; py "Sep"; py "Oct"; py "Nov"; py "Dec"]
      [].

Fixpoint strftime_c (dt : date_time) (format : str) : str :=
  match format with
  | 37 :: directive :: rest =>
      (if directive =? 89 then decimal (year dt)
       else if directive =? 109 then two_digits (month dt)
       else if directive =? 100 then two_digits (day dt)
       else if directive =? 72 then two_digits (hour dt)
       else if directive =? 77 then two_digits (minute dt)
       else if directive =? 97 then weekday_name dt
       else if directive =? 98 then month_name dt
       else [37; directive])
      ++ strftime_c dt rest
  | ch :: rest => ch :: strftime_c dt rest
  | [] => []
  end.

(** [strptime] as the validation of the manifest sees it: whether it
    returns. *)
Definition accepts {datetime : Type} (strptime : str -> option datetime)
    (s : str) : bool :=
  match strptime s with
  | Some _ => true
  | None => false
  end.

(** The fields a builder reads from a release. *)
Definition MKD_FIELDS : list str :=
  [py "description"; py "version"; py "time"].

Definition DEB_FIELDS : list str :=
  [py "description"; py "version"; py "time"; py "stability"; py "urgency";
   py "author"; py "email"].

Definition RPM_FIELDS : list str :=
  [py "description"; py "version"; py "time"; py "author"; py "email"].

(** The release has all the fields of the list. *)
Definition complete (fields : list str) (release : release) : Prop :=
  Forall (fun key => get release key <> None) fields.

(** An outcome that is either done, the release having the field, or the
    [KeyError] of the field the release does not have. *)
Definition done_or_missing {A : Type} (o : outcome A) (release : release)
    (key : str) : Prop :=
  match o with
  | Done _ => get release key <> None
  | Failed f => f = KeyError key /\ get release key = None
  end.

(** The text that [print] can write for the release, if there is one. *)
Definition printable (entry : release -> outcome str) (release : release)
    : Prop :=
  forall text, entry release = Done text -> encodable text = true.

(** What the loop prints for the entries [texts]. *)
Definition printed (blank_line : bool) (texts : list str) : str :=
  concat (map (fun text =>
                 text ++ newline ++ (if blank_line then newline else []))
              texts).

(** What a loop over the releases leaves: the entries [texts] of the
    releases [done], in their order behind what was [written] before, and
    either nothing left to do, or the failure of the release that comes
    next: the [KeyError] of a field of [fields] it does not have, or the
    [UnicodeEncodeError] of its entry. *)
Definition entries_written (entry : release -> outcome str)
    (fields : list str) (blank_line : bool) (versions : list release)
    (written : str) (result : str * option failure) : Prop :=
  exists (done : list release) (texts : list str) (rest : list release),
    versions = done ++ rest
    /\ Forall2 (fun release text =>
                  entry release = Done text /\ encodable text = true)
               done texts
    /\ result.1 = written ++ printed blank_line texts
    /\ match result.2 with
       | None => rest = [] /\ Forall (complete fields) versions
       | Some f =>
           exists release rest',
             rest = release :: rest'
             /\ ((exists key,
                    In key fields /\ f = KeyError key
                    /\ get release key = None)
                 \/ (exists text,
                       entry release = Done text
                       /\ encodable text = false
                       /\ f = UnicodeEncodeError))
       end.

End Changelog.

(** * Theorems *)

Module AppFacts.
Import Py App.

Example split_spec :
  split (py "::") (py "main_widget.login_widget::user-logged-in")
  = [py "main_widget.login_widget"; py "user-logged-in"].
Proof. vm_compute. reflexivity. Qed.

Example split_overlap : split (py "::") (py "a:::b") = [py "a"; py ":b"].
Proof. vm_compute. reflexivity. Qed.

Example split_path : split (py ".") (py "a.b.c") = [py "a"; py "b"; py "c"].
Proof. vm_compute. reflexivity. Qed.

Example split_empty : split (py ".") [] = [[]].
Proof. reflexivity. Qed.

Lemma process_loop_prefix (pre : list request) :
  forall (conns : list connection) (a : app) (n : nat) (rest : list request),
    Forall2 (fun r c => resolve (window_object a) r = Ok c) pre conns ->
    signal_connect_queue a = pre ++ rest ->
    process_loop (length pre + n) a = process_loop n (progressed rest conns a).
Proof.
  induction pre as [|r pre IH]; intros conns a n rest HF Hq.
  - inversion HF; subst. simpl in *. destruct a; simpl in *; subst.
    unfold progressed; simpl. now rewrite app_nil_r.
  - inversion HF as [|? c ? conns' Hr HF']; subst.
    simpl. rewrite Hq. simpl.
    change (window_object (set_queue (pre ++ rest) a)) with (window_object a).
    rewrite Hr.
    rewrite (IH conns' (add_connection c (set_queue (pre ++ rest) a)) n rest);
      [|exact HF'|reflexivity].
    unfold progressed; simpl. now rewrite <- app_assoc.
Qed.

Lemma queue_all_before_window (reqs : list request) :
  forall a : app,
    window a = None ->
    queue_all reqs a
    = (set_queue (signal_connect_queue a ++ reqs) a, None).
Proof.
  induction reqs as [|[spec cb] reqs IH]; intros a Hw.
  - simpl. destruct a; unfold set_queue; simpl. now rewrite app_nil_r.
  - simpl. unfold queue_signal_connect. simpl. rewrite Hw.
    rewrite IH by exact Hw.
    unfold set_queue; simpl. now rewrite <- app_assoc.
Qed.

Lemma process_all_resolved (a : app) (conns : list connection) :
  Forall2 (fun r c => resolve (window_object a) r = Ok c)
          (signal_connect_queue a) conns ->
  _process_signal_connect_queue a = (progressed [] conns a, None).
Proof.
  intros HF. unfold _process_signal_connect_queue.
  rewrite <- (Nat.add_0_r (length (signal_connect_queue a))).
  rewrite (process_loop_prefix _ conns a 0 []); [reflexivity|exact HF|].
  now rewrite app_nil_r.
Qed.

Lemma resolved_connections (w : pyobj) (reqs : list request) :
  Forall (fun r => is_ok (resolve w r)) reqs ->
  exists conns,
    Forall2 (fun r c => resolve w r = Ok c) reqs conns
    /\ map conn_callback conns = map snd reqs.
Proof.
  induction 1 as [|[spec cb] reqs Hr _ [conns [HF Hcb]]].
  - exists []. split; constructor.
  - destruct (resolve w (spec, cb)) as [c|e] eqn:E; [|destruct Hr].
    exists (c :: conns). split.
    + constructor; assumption.
    + simpl. rewrite Hcb. f_equal.
      unfold resolve in E.
      destruct (split _ spec) as [|p [|sg [|? ?]]]; try discriminate.
      destruct (follow w _) as [[oid sigs ?|?]|?]; try discriminate.
      unfold connect in E. destruct (existsb _ sigs); [|discriminate].
      now inversion E.
Qed.

(** C1 (amended).  When every request queued before the main window exists
    resolves against that window, queueing connects nothing, and creating
    the window leaves the queue empty after one [connect] per request, in
    the order of submission: the callbacks connected are exactly the
    callbacks submitted.  Activating again connects nothing more, and a
    resolving request made once the window exists is connected by the call
    itself. *)
Theorem queued_requests_connected_fifo (w : pyobj) (reqs : list request) :
  Forall (fun r => is_ok (resolve w r)) reqs ->
  exists (a0 a1 : app) (conns : list connection),
    queue_all reqs init = (a0, None)
    /\ connections a0 = []
    /\ do_activate w a0 = (a1, None)
    /\ Forall2 (fun r c => resolve w r = Ok c) reqs conns
    /\ connections a1 = conns
    /\ connected_callbacks a1 = map snd reqs
    /\ signal_connect_queue a1 = []
    /\ window a1 = Some w
    /\ (forall w', connections (do_activate w' a1).1 = conns)
    /\ (forall (a : app) (spec : str) (cb : callback) (c : connection),
          window a = Some w ->
          signal_connect_queue a = [] ->
          resolve w (spec, cb) = Ok c ->
          queue_signal_connect spec cb a
          = (progressed [] [c] a, None)).
Proof.
  intros Hall.
  destruct (resolved_connections w reqs Hall) as [conns [HF Hcb]].
  set (a0 := set_queue reqs init).
  set (aw := {| window := Some w; signal_connect_queue := reqs;
                connections := []; app_ready := 0%nat |}).
  assert (Hp : _process_signal_connect_queue aw = (progressed [] conns aw, None))
    by (apply process_all_resolved; exact HF).
  exists a0, {| window := Some w; signal_connect_queue := [];
                connections := conns; app_ready := 1%nat |}, conns.
  repeat split; try reflexivity; try assumption.
  - now rewrite queue_all_before_window.
  - unfold do_activate. simpl. fold aw. now rewrite Hp.
  - intros [wa qa ca ra] spec cb c Hw Hq Hr. simpl in Hw, Hq. subst wa qa.
    unfold queue_signal_connect. simpl.
    rewrite (process_all_resolved _ [c]).
    + reflexivity.
    + simpl. constructor; [exact Hr|constructor].
Qed.

Lemma queued_requests_connected_fifo_witness :
  exists (a0 a1 : app) (conns : list connection),
    queue_all [(py "main_widget.login_widget::user-logged-in", 7%nat);
               (py "main_widget::main-widget-ready", 8%nat)] init
    = (a0, None)
    /\ connections a0 = []
    /\ do_activate sample_window a0 = (a1, None)
    /\ Forall2 (fun r c => resolve sample_window r = Ok c)
         [(py "main_widget.login_widget::user-logged-in", 7%nat);
          (py "main_widget::main-widget-ready", 8%nat)] conns
    /\ connections a1 = conns
    /\ connected_callbacks a1 = [7%nat; 8%nat]
    /\ signal_connect_queue a1 = []
    /\ window a1 = Some sample_window
    /\ (forall w', connections (do_activate w' a1).1 = conns)
    /\ (forall (a : app) (spec : str) (cb : callback) (c : connection),
          window a = Some sample_window ->
          signal_connect_queue a = [] ->
          resolve sample_window (spec, cb) = Ok c ->
          queue_signal_connect spec cb a
          = (progressed [] [c] a, None)).
Proof.
  apply (queued_requests_connected_fifo sample_window
           [(py "main_widget.login_widget::user-logged-in", 7%nat);
            (py "main_widget::main-widget-ready", 8%nat)]).
  repeat constructor.
Defined.

(** C1, as stated, fails: a request that does not resolve ends the
    processing, and the requests queued behind it are not connected when
    the window is created. *)
Lemma fifo_connect_unconditional_fails : ~ fifo_connect_unconditional.
Proof.
  intros [H _].
  destruct (H sample_window
              [(py "application_name::notify", 1%nat);
               (py "main_widget.login_widget::user-logged-in", 2%nat)])
    as (a0 & a1 & e & Hq & Ha & Hc).
  vm_compute in Hq. inversion Hq; subst a0; clear Hq.
  vm_compute in Ha. inversion Ha; subst a1; clear Ha.
  vm_compute in Hc. discriminate Hc.
Qed.

(** C8.  When the request at the head of what is left of the queue has a
    well-formed signal spec whose attribute path leads from the main window
    to an object that is not a [GObject.Object], processing stops there
    with [AssertionError]: the requests before it (all resolving) are
    connected, the failing request is removed, and no connection is made
    for it or for the requests behind it. *)
Theorem non_gobject_fails_assertion (a : app) (w : pyobj)
    (pre rest : list request) (conns : list connection)
    (spec widget_path signal_name : str) (cb : callback)
    (attrs : list (str * pyobj)) :
  window a = Some w ->
  signal_connect_queue a = pre ++ (spec, cb) :: rest ->
  Forall2 (fun r c => resolve w r = Ok c) pre conns ->
  split (py "::") spec = [widget_path; signal_name] ->
  follow w (split (py ".") widget_path) = Ok (Plain attrs) ->
  resolve w (spec, cb) = Raise AssertionError
  /\ _process_signal_connect_queue a
     = (progressed rest conns a, Some AssertionError).
Proof.
  intros Hw Hq HF Hs Hf.
  assert (Hr : resolve w (spec, cb) = Raise AssertionError).
  { unfold resolve. rewrite Hs, Hf. reflexivity. }
  split; [exact Hr|].
  assert (Hwo : window_object a = w) by (unfold window_object; now rewrite Hw).
  unfold _process_signal_connect_queue. rewrite Hq, length_app.
  rewrite (process_loop_prefix pre conns a _ ((spec, cb) :: rest));
    [|now rewrite Hwo|exact Hq].
  cbn [length process_loop progressed signal_connect_queue].
  change (window_object (set_queue rest (progressed ((spec, cb) :: rest) conns a)))
    with (window_object a).
  rewrite Hwo, Hr. reflexivity.
Qed.

Lemma non_gobject_fails_assertion_witness :
  resolve sample_window (py "application_name::notify", 1%nat)
  = Raise AssertionError
  /\ _process_signal_connect_queue
       {| window := Some sample_window;
          signal_connect_queue :=
            [(py "main_widget::main-widget-ready", 3%nat);
             (py "application_name::notify", 1%nat);
             (py "main_widget.login_widget::user-logged-in", 2%nat)];
          connections := []; app_ready := 0%nat |}
     = ({| window := Some sample_window;
           signal_connect_queue :=
             [(py "main_widget.login_widget::user-logged-in", 2%nat)];
           connections := [Connection 1 (py "main-widget-ready") 3];
           app_ready := 0%nat |}, Some AssertionError).
Proof.
  apply (non_gobject_fails_assertion
           {| window := Some sample_window;
              signal_connect_queue :=
                [(py "main_widget::main-widget-ready", 3%nat);
                 (py "application_name::notify", 1%nat);
                 (py "main_widget.login_widget::user-logged-in", 2%nat)];
              connections := []; app_ready := 0%nat |}
           sample_window
           [(py "main_widget::main-widget-ready", 3%nat)]
           [(py "main_widget.login_widget::user-logged-in", 2%nat)]
           [Connection 1 (py "main-widget-ready") 3]
           (py "application_name::notify") (py "application_name")
           (py "notify") 1%nat []).
  - reflexivity.
  - reflexivity.
  - repeat constructor.
  - vm_compute. reflexivity.
  - vm_compute. reflexivity.
Defined.

End AppFacts.

Module LoginFacts.
Import Py Login.

Create HintDb login_form discriminated.

Lemma entry_changed_follows (f : LoginForm) :
  button_follows_entries (_on_entry_changed f).
Proof. reflexivity. Qed.

Lemma set_username_follows (text : str) (f : LoginForm) :
  button_follows_entries f -> button_follows_entries (set_username text f).
Proof.
  intros H. unfold set_username.
  destruct (str_eqb text (username f)); [exact H|apply entry_changed_follows].
Qed.

Lemma set_password_follows (text : str) (f : LoginForm) :
  button_follows_entries f -> button_follows_entries (set_password text f).
Proof.
  intros H. unfold set_password.
  destruct (str_eqb text (password f)); [exact H|apply entry_changed_follows].
Qed.

Lemma set_error_message_follows (m : str) (f : LoginForm) :
  button_follows_entries f -> button_follows_entries (set_error_message m f).
Proof. intros H. exact H. Qed.

Lemma set_login_spinner_follows (b : bool) (f : LoginForm) :
  button_follows_entries f -> button_follows_entries (set_login_spinner b f).
Proof. intros H. exact H. Qed.

Lemma reset_follows (f : LoginForm) :
  button_follows_entries f -> button_follows_entries (LoginForm_reset f).
Proof.
  intros H. unfold LoginForm_reset.
  now apply set_password_follows, set_username_follows,
    set_error_message_follows.
Qed.

#[local] Hint Resolve entry_changed_follows set_username_follows
  set_password_follows set_error_message_follows set_login_spinner_follows
  reset_follows : login_form.

Lemma display_form_follows (f : form) (w : LoginWidget) :
  button_follows_entries (login_form w) ->
  button_follows_entries (login_form (display_form f w)).
Proof. intros H. destruct f; simpl; auto with login_form. Qed.

#[local] Hint Resolve display_form_follows : login_form.

Lemma login_result_follows (fut : future) (w : LoginWidget) :
  button_follows_entries (login_form w) ->
  button_follows_entries (login_form (_on_login_result fut w).1).
Proof.
  intros H. destruct fut as [[[] []]|[]]; simpl; auto 6 with login_form.
Qed.

Lemma two_factor_result_follows (fut : future) (w : LoginWidget) :
  button_follows_entries (login_form w) ->
  button_follows_entries (login_form (_on_2fa_submission_result fut w).1).
Proof.
  intros H. destruct fut as [[[] []]|e]; simpl; auto 6 with login_form.
Qed.

Lemma press_enter_follows (w : LoginWidget) :
  button_follows_entries (login_form w) ->
  button_follows_entries (login_form (_on_press_enter w)).
Proof.
  intros H. unfold _on_press_enter.
  destruct (login_button_sensitive (login_form w)); simpl; auto with login_form.
Qed.

Lemma step_follows (ev : event) (w : LoginWidget) :
  button_follows_entries (login_form w) ->
  button_follows_entries (login_form (step ev w)).
Proof.
  intros H. destruct ev; simpl step.
  - simpl. auto with login_form.
  - simpl. auto with login_form.
  - exact H.
  - now apply press_enter_follows.
  - now apply press_enter_follows.
  - exact H.
  - now apply login_result_follows.
  - exact H.
  - now apply two_factor_result_follows.
  - now apply display_form_follows.
Qed.

Lemma reachable_follows (w : LoginWidget) :
  reachable w -> button_follows_entries (login_form w).
Proof.
  induction 1 as [|ev w _ IH]; [reflexivity|now apply step_follows].
Qed.

Lemma username_set_username (text : str) (f : LoginForm) :
  username (set_username text f) = text.
Proof.
  unfold set_username, str_eqb. case_bool_decide; [congruence|reflexivity].
Qed.

Lemma password_set_username (text : str) (f : LoginForm) :
  password (set_username text f) = password f.
Proof. unfold set_username. now destruct (str_eqb _ _). Qed.

Lemma error_message_set_username (text : str) (f : LoginForm) :
  error_message (set_username text f) = error_message f.
Proof. unfold set_username. now destruct (str_eqb _ _). Qed.

Lemma password_set_password (text : str) (f : LoginForm) :
  password (set_password text f) = text.
Proof.
  unfold set_password, str_eqb. case_bool_decide; [congruence|reflexivity].
Qed.

Lemma username_set_password (text : str) (f : LoginForm) :
  username (set_password text f) = username f.
Proof. unfold set_password. now destruct (str_eqb _ _). Qed.

Lemma error_message_set_password (text : str) (f : LoginForm) :
  error_message (set_password text f) = error_message f.
Proof. unfold set_password. now destruct (str_eqb _ _). Qed.

Lemma reset_clears (f : LoginForm) :
  username (LoginForm_reset f) = []
  /\ password (LoginForm_reset f) = []
  /\ error_message (LoginForm_reset f) = [].
Proof.
  unfold LoginForm_reset. repeat split.
  - now rewrite username_set_password, username_set_username.
  - now rewrite password_set_password.
  - now rewrite error_message_set_password, error_message_set_username.
Qed.

Lemma provided_iff (text : str) :
  (0 <? length (strip text))%nat = true <-> strip text <> [].
Proof.
  destruct (strip text); simpl; split; intros H;
    try discriminate; try reflexivity; try congruence.
Qed.

Lemma lstrip_nil (text : str) :
  lstrip text = [] <-> forallb isspace text = true.
Proof.
  induction text as [|c text IH]; simpl; [tauto|].
  destruct (isspace c); simpl; [exact IH|]. split; discriminate.
Qed.

Lemma lstrip_head (text : str) (c : N) (rest : str) :
  lstrip text = c :: rest -> isspace c = false.
Proof.
  induction text as [|a text IH]; simpl; [discriminate|].
  destruct (isspace a) eqn:E; [exact IH|]. intros H. now inversion H; subst.
Qed.

(** A text strips to the empty string exactly when it is empty or made of
    whitespace only. *)
Lemma strip_nil (text : str) :
  strip text = [] <-> forallb isspace text = true.
Proof.
  unfold strip, rstrip. split.
  - intros H. apply lstrip_nil.
    destruct (lstrip text) as [|c rest] eqn:E; [reflexivity|exfalso].
    apply (f_equal (@rev N)) in H. rewrite rev_involutive in H. simpl in H.
    apply lstrip_nil in H. rewrite forallb_app in H.
    apply andb_true_iff in H as [_ H]. simpl in H.
    rewrite (lstrip_head _ _ _ E) in H. discriminate H.
  - intros H. apply lstrip_nil in H. now rewrite H.
Qed.

(** C3.  The login button starts insensitive; a [changed] update makes it
    sensitive only when both stripped texts are non-empty; so in every
    state the form reaches in which the username or the password is empty
    or made of whitespace only, the button is insensitive, and pressing
    Enter in either entry submits nothing: the state, and with it the list
    of controller calls, stays as it was. *)
Theorem empty_entry_keeps_login_disabled (w : LoginWidget) :
  reachable w ->
  forallb isspace (username (login_form w)) = true
  \/ forallb isspace (password (login_form w)) = true ->
  login_button_sensitive (login_form init) = false
  /\ (forall f : LoginForm,
        login_button_sensitive (_on_entry_changed f) = true <->
        strip (username f) <> [] /\ strip (password f) <> [])
  /\ login_button_sensitive (login_form w) = false
  /\ step username_enter w = w
  /\ step password_enter w = w.
Proof.
  intros Hr Hempty.
  assert (Hoff : login_button_sensitive (login_form w) = false).
  { rewrite (reachable_follows w Hr).
    destruct Hempty as [H|H]; apply strip_nil in H; rewrite H; simpl;
      [reflexivity|apply andb_false_r]. }
  split; [reflexivity|]. split.
  - intros f. simpl. rewrite andb_true_iff, !provided_iff. reflexivity.
  - split; [exact Hoff|].
    simpl. unfold _on_press_enter. rewrite Hoff. split; reflexivity.
Qed.

Lemma empty_entry_keeps_login_disabled_witness :
  let w := run [username_changed (py "alice"); password_changed (py "  ")]
               init in
  login_button_sensitive (login_form init) = false
  /\ (forall f : LoginForm,
        login_button_sensitive (_on_entry_changed f) = true <->
        strip (username f) <> [] /\ strip (password f) <> [])
  /\ login_button_sensitive (login_form w) = false
  /\ step username_enter w = w
  /\ step password_enter w = w.
Proof.
  apply (empty_entry_keeps_login_disabled
           (run [username_changed (py "alice"); password_changed (py "  ")]
                init)).
  - apply reachable_step, reachable_step, reachable_init.
  - right. vm_compute. reflexivity.
Defined.

(** C2 (amended).  A submission always calls [Controller.login], once,
    with the texts of the two entries; when the future of that call raises
    [ValueError] (the malformed username), the handler leaves without an
    exception, the error message is [Invalid username.], [login-error] is
    emitted and nothing else, the spinner is stopped, and the entries and
    the form on display stay as they were. *)
Theorem malformed_username_reported_after_login_call (w : LoginWidget) :
  let submitted := _on_login_button_clicked w in
  let done := _on_login_result (Raises ValueError) submitted in
  controller_calls submitted
  = controller_calls w
    ++ [login (username (login_form w)) (password (login_form w))]
  /\ done.2 = None
  /\ error_message (login_form done.1) = py "Invalid username."
  /\ emitted done.1 = emitted w ++ [login_error]
  /\ controller_calls done.1 = controller_calls submitted
  /\ login_spinner (login_form done.1) = false
  /\ username (login_form done.1) = username (login_form w)
  /\ password (login_form done.1) = password (login_form w)
  /\ active_form done.1 = active_form w
  /\ visible_child done.1 = visible_child w.
Proof. repeat split. Qed.

(** C2, as stated, fails: the submission of a malformed username has
    called the controller by the time the error is shown. *)
Lemma malformed_username_without_controller_fails :
  ~ malformed_username_without_controller.
Proof.
  intros H.
  destruct (H (run [username_changed (py "not a username");
                    password_changed (py "secret")] init))
    as (_ & _ & Hcalls).
  vm_compute in Hcalls. discriminate Hcalls.
Qed.

(** C4.  A login result with [authenticated] true leaves the handler
    without an exception.  Without 2FA, [user-authenticated] and then
    [user-logged-in] are emitted and [display_form] is not run: the active
    form, the visible child and the 2FA form are untouched.  With 2FA
    required, [user-logged-in] is not emitted, the 2FA form becomes the
    active form and the visible child, and its error message and code
    entry are empty. *)
Theorem authenticated_login_result (w : LoginWidget)
    (two_factor_auth_required : bool) :
  let done :=
    _on_login_result
      (Returns {| authenticated := true;
                  twofa_required := two_factor_auth_required |}) w in
  done.2 = None
  /\ if two_factor_auth_required
     then emitted done.1 = emitted w ++ [user_authenticated true]
          /\ active_form done.1 = Some two_factor_auth_form_child
          /\ visible_child done.1 = Some two_factor_auth_form_child
          /\ tfa_error_message (two_factor_auth_form done.1) = []
          /\ two_factor_auth_code (two_factor_auth_form done.1) = []
     else emitted done.1
          = emitted w ++ [user_authenticated false; user_logged_in]
          /\ active_form done.1 = active_form w
          /\ visible_child done.1 = visible_child w
          /\ two_factor_auth_form done.1 = two_factor_auth_form w.
Proof.
  destruct two_factor_auth_required; simpl; repeat split.
  now rewrite <- app_assoc.
Qed.

(** C5.  A 2FA submission result with [authenticated] false leaves the
    handler without an exception, emits [session-expired] and nothing else,
    and makes the login form the active form and the visible child, with an
    empty username, password and error message. *)
Theorem session_expired_returns_to_login (w : LoginWidget)
    (still_required : bool) :
  let done :=
    _on_2fa_submission_result
      (Returns {| authenticated := false;
                  twofa_required := still_required |}) w in
  done.2 = None
  /\ emitted done.1 = emitted w ++ [session_expired]
  /\ active_form done.1 = Some login_form_child
  /\ visible_child done.1 = Some login_form_child
  /\ username (login_form done.1) = []
  /\ password (login_form done.1) = []
  /\ error_message (login_form done.1) = [].
Proof.
  simpl. repeat split; apply reset_clears.
Qed.

End LoginFacts.

Module SettingsFacts.
Import Py Settings.

(** C9.  Each setter reads the configuration of the controller once and
    then assigns it once; the object assigned is the object read with the
    one attribute of the setter replaced, so every other attribute written
    back has the value that was read. *)
Theorem setters_change_one_field (upper : str -> str) (c : Controller)
    (startup : value) (servers : str) :
  let c1 := set_connect_at_app_startup startup c in
  let c2 := set_tray_pinned_servers upper servers c in
  (accesses c1
   = accesses c ++ [configuration_read;
                    configuration_written (app_configuration c1)]
   /\ app_configuration c1
      = <["connect_at_app_startup"%string := startup]> (app_configuration c)
   /\ forall attr : string,
        attr <> "connect_at_app_startup"%string ->
        app_configuration c1 !! attr = app_configuration c !! attr)
  /\ (accesses c2
      = accesses c ++ [configuration_read;
                       configuration_written (app_configuration c2)]
      /\ app_configuration c2
         = <["tray_pinned_servers"%string :=
               VList (clean_servers upper (split (py ",") servers))]>
             (app_configuration c)
      /\ forall attr : string,
           attr <> "tray_pinned_servers"%string ->
           app_configuration c2 !! attr = app_configuration c !! attr).
Proof.
  simpl. split; (split; [now rewrite <- app_assoc|]); split;
    try reflexivity; intros attr Hne; now rewrite lookup_insert_ne.
Qed.

Lemma setters_change_one_field_witness :
  let c := {| app_configuration :=
                {[ "connect_at_app_startup"%string := VNone;
                   "tray_pinned_servers"%string := VList [py "NL#42"] ]};
              accesses := [] |} in
  app_configuration (set_connect_at_app_startup (VStr (py "FASTEST")) c)
    !! "tray_pinned_servers"%string
  = Some (VList [py "NL#42"])
  /\ app_configuration (set_tray_pinned_servers (fun text => text) (py "JP, US") c)
       !! "connect_at_app_startup"%string
     = Some VNone.
Proof.
  destruct (setters_change_one_field (fun text => text)
              {| app_configuration :=
                   {[ "connect_at_app_startup"%string := VNone;
                      "tray_pinned_servers"%string := VList [py "NL#42"] ]};
                 accesses := [] |}
              (VStr (py "FASTEST")) (py "JP, US"))
    as [(_ & _ & H1) (_ & _ & H2)].
  split.
  - rewrite H1 by discriminate. reflexivity.
  - rewrite H2 by discriminate. reflexivity.
Defined.

End SettingsFacts.

Module VersionsFacts.
Import Versions.

Example rebuild_rc : rebuild_version (py "4.5.6rc1") (py "~") = Ok (py "4.5.6~rc1").
Proof. vm_compute. reflexivity. Qed.

Example rebuild_plain : rebuild_version (py "4.5.6") (py "~") = Ok (py "4.5.6").
Proof. vm_compute. reflexivity. Qed.

Example rebuild_digits : rebuild_version (py "1234567a1") (py "~") = Ok (py "1234567a1").
Proof. vm_compute. reflexivity. Qed.

Example rebuild_bad : rebuild_version (py "v1.2.3") (py "~")
  = Raise (ValueError (Invalid_version (py "v1.2.3"))).
Proof. vm_compute. reflexivity. Qed.

Example strptime_examples :
  map strptime_ascii
    [py "2023/01/15 10:30"; py "2023/1/5 9:05"; py "2023/02/30 10:00";
     py "0000/01/01 00:00"; py "2023/01/01  10:00"; py "2023/01/01 10:00 ";
     py "23/01/01 10:00"; py "2023/ 1/01 10:00"; py "2023/01/ 1 10:00";
     py "2024/02/29 24:00"; py "2024/02/29 23:60"; py "2024/02/29 23:59";
     py "2023/013 10:00"; py "15-01-2023"]
  = [true; true; false; false; true; false; false; false; true; false;
     false; true; false; false].
Proof. vm_compute. reflexivity. Qed.

Example validate_full_release :
  validate_versions strptime_ascii
    [[(py "version", VStr (py "4.5.6rc1"));
      (py "time", VStr (py "2023/01/15 10:30"));
      (py "author", VStr (py "Proton AG"));
      (py "email", VStr (py "opensource@proton.me"));
      (py "urgency", VStr (py "medium"));
      (py "stability", VStr (py "unstable"));
      (py "description", VList [VStr (py "Fix login."); VStr (py "Add tray.")])]]
  = Ok tt.
Proof. vm_compute. reflexivity. Qed.

Example validate_unrecognised :
  validate_versions strptime_ascii
    [[(py "version", VStr (py "4.5.6")); (py "colour", VStr (py "red"))]]
  = Raise (ValueError (Unrecognised_field (py "colour"))).
Proof. vm_compute. reflexivity. Qed.

Example validate_bad_time :
  validate_versions strptime_ascii [[(py "time", VStr (py "15-01-2023"))]]
  = Raise (ValueError (Incorrect_value (py "time") (VStr (py "15-01-2023")))).
Proof. vm_compute. reflexivity. Qed.

Example validate_number_time :
  validate_versions strptime_ascii [[(py "time", VInt 20230115)]]
  = Raise TypeError.
Proof. vm_compute. reflexivity. Qed.

(** **** What a successful match went through *)

Lemma startswith_app (text s : str) :
  Py.startswith text s = true -> s = text ++ drop (length text) s.
Proof.
  revert s. induction text as [|a text IH]; intros [|b s] H; simpl in *;
    try reflexivity; try discriminate.
  apply andb_true_iff in H as [Hab Ht]. apply N.eqb_eq in Hab. subst b.
  f_equal. now apply IH.
Qed.

Lemma greedy_through {R} (p : N -> bool) (s : str) :
  forall (pos : nat) (k : nat -> str -> option R) (m : R),
    greedy p pos s k = Some m ->
    exists u s', s = u ++ s' /\ k (pos + length u)%nat s' = Some m.
Proof.
  induction s as [|c s IH]; intros pos k m H; simpl in H.
  - exists [], []. rewrite Nat.add_0_r. now split.
  - destruct (p c).
    + destruct (greedy p (S pos) s k) as [m'|] eqn:E.
      * destruct (IH _ _ _ E) as (u & s' & -> & Hk).
        exists (c :: u), s'. split; [reflexivity|].
        simpl. rewrite Nat.add_succ_r. simpl in Hk. congruence.
      * exists [], (c :: s). rewrite Nat.add_0_r. now split.
    + exists [], (c :: s). rewrite Nat.add_0_r. now split.
Qed.

Lemma matches_through {R} (r : regex) :
  no_group r = true ->
  forall (pos : nat) (s : str) (g : groups)
         (k : nat -> str -> groups -> option R) (m : R),
    matches r pos s g k = Some m ->
    exists u s', s = u ++ s' /\ k (pos + length u)%nat s' g = Some m.
Proof.
  induction r as [p|p|text|r1 IH1 r2 IH2|r1 IH1 r2 IH2|r1 IH1|i r1 IH1| |];
    intros Hng pos s g k m H; simpl in Hng, H.
  - destruct s as [|c s]; [discriminate|]. destruct (p c); [|discriminate].
    exists [c], s. simpl. rewrite Nat.add_1_r. now split.
  - destruct s as [|c s]; [discriminate|]. destruct (p c); [|discriminate].
    destruct (greedy_through _ _ _ _ _ H) as (u & s' & -> & Hk).
    exists (c :: u), s'. split; [reflexivity|].
    simpl. rewrite Nat.add_succ_r. exact Hk.
  - destruct (Py.startswith text s) eqn:E; [|discriminate].
    exists text, (drop (length text) s). split; [now apply startswith_app|exact H].
  - apply andb_true_iff in Hng as [H1 H2].
    destruct (IH1 H1 _ _ _ _ _ H) as (u1 & s1 & -> & Hk1).
    destruct (IH2 H2 _ _ _ _ _ Hk1) as (u2 & s2 & -> & Hk2).
    exists (u1 ++ u2), s2. split; [now rewrite app_assoc|].
    rewrite length_app, Nat.add_assoc. exact Hk2.
  - apply andb_true_iff in Hng as [H1 H2].
    destruct (matches r1 pos s g k) as [m'|] eqn:E.
    + apply (IH1 H1 _ _ _ _ _). congruence.
    + now apply (IH2 H2 _ _ _ _ _).
  - destruct (matches r1 pos s g k) as [m'|] eqn:E.
    + apply (IH1 Hng _ _ _ _ _). congruence.
    + exists [], s. rewrite Nat.add_0_r. now split.
  - discriminate.
  - destruct (pos =? 0)%nat; [|discriminate].
    exists [], s. rewrite Nat.add_0_r. now split.
  - destruct (at_end s); [|discriminate].
    exists [], s. rewrite Nat.add_0_r. now split.
Qed.

(** A match of [(A)(B)?], for [A] and [B] without groups: group 1 and then
    group 2, if it took part, are consecutive pieces at the start of the
    string. *)
Lemma two_groups_match (A B : regex) (v : str) (stop : nat) (g : groups) :
  no_group A = true -> no_group B = true ->
  re_match (Seq (Group 1 A) (Opt (Group 2 B))) v = Some (stop, g) ->
  exists rel rest,
    v = rel ++ rest
    /\ group 1 g = Some rel
    /\ ((group 2 g = None /\ stop = length rel)
        \/ exists pre rest', rest = pre ++ rest' /\ group 2 g = Some pre
                             /\ stop = (length rel + length pre)%nat).
Proof.
  intros HA HB H. unfold re_match in H. cbn [matches] in H.
  destruct (matches_through A HA _ _ _ _ _ H) as (rel & rest & -> & Hk).
  clear H. cbn beta in Hk. simpl Nat.add in Hk. rewrite Nat.sub_0_r in Hk.
  rewrite take_app_length in Hk.
  exists rel, rest. split; [reflexivity|].
  match type of Hk with
  | match ?x with _ => _ end = _ => destruct x as [m|] eqn:E
  end.
  - destruct (matches_through B HB _ _ _ _ _ E) as (pre & rest' & -> & Hk').
    cbn beta in Hk'. inversion Hk; subst m; clear Hk.
    inversion Hk'; subst stop g; clear Hk'.
    split; [reflexivity|]. right. exists pre, rest'.
    replace (length rel + length pre - length rel)%nat with (length pre) by lia.
    rewrite take_app_length. now repeat split.
  - inversion Hk; subst. split; [reflexivity|]. left. now split.
Qed.

(** **** Versions of the usual shape *)

Lemma greedy_all {R} (p : N -> bool) (u rest : str) :
  forall (pos : nat) (k : nat -> str -> option R) (m : R),
    forallb p u = true -> not_next p rest ->
    k (pos + length u)%nat rest = Some m ->
    greedy p pos (u ++ rest) k = Some m.
Proof.
  induction u as [|a u IH]; intros pos k m Hu Hrest Hk; simpl in *.
  - rewrite Nat.add_0_r in Hk.
    destruct rest as [|c rest]; simpl; [exact Hk|]. now rewrite Hrest.
  - apply andb_true_iff in Hu as [Ha Hu]. rewrite Ha.
    rewrite (IH (S pos) k m Hu Hrest); [reflexivity|].
    now rewrite Nat.add_succ_r in Hk.
Qed.

Lemma plus_all {R} (p : N -> bool) (u rest : str) (pos : nat) (g : groups)
    (k : nat -> str -> groups -> option R) (m : R) :
  u <> [] -> forallb p u = true -> not_next p rest ->
  k (pos + length u)%nat rest g = Some m ->
  matches (Plus p) pos (u ++ rest) g k = Some m.
Proof.
  intros Hne Hu Hrest Hk. destruct u as [|a u]; [congruence|].
  simpl in *. apply andb_true_iff in Hu as [Ha Hu]. rewrite Ha.
  apply greedy_all; [exact Hu|exact Hrest|].
  now rewrite Nat.add_succ_r in Hk.
Qed.

Lemma lower_not_digit (c : N) : lower c = true -> digit c = false.
Proof.
  unfold lower, digit. intros H. apply andb_true_iff in H as [H _].
  apply N.leb_le in H. apply andb_false_iff. right. apply N.leb_gt. lia.
Qed.

Lemma digit_not_lower (c : N) : digit c = true -> lower c = false.
Proof.
  intros H. destruct (lower c) eqn:E; [|reflexivity].
  apply lower_not_digit in E. congruence.
Qed.

Lemma matches_Seq {R} (r1 r2 : regex) (pos : nat) (s : str) (g : groups)
    (k : nat -> str -> groups -> option R) :
  matches (Seq r1 r2) pos s g k
  = matches r1 pos s g (fun pos' s' g' => matches r2 pos' s' g' k).
Proof. reflexivity. Qed.

Lemma matches_Char {R} (p : N -> bool) (c : N) (pos : nat) (s : str)
    (g : groups) (k : nat -> str -> groups -> option R) :
  p c = true -> matches (Char p) pos (c :: s) g k = k (S pos) s g.
Proof. intros H. simpl. now rewrite H. Qed.

Lemma matches_Group {R} (i : nat) (r : regex) (pos : nat) (s : str)
    (g : groups) (k : nat -> str -> groups -> option R) :
  matches (Group i r) pos s g k
  = matches r pos s g
      (fun pos' s' g' => k pos' s' ((i, take (pos' - pos) s) :: g')).
Proof. reflexivity. Qed.

Lemma matches_Opt {R} (r : regex) (pos : nat) (s : str) (g : groups)
    (k : nat -> str -> groups -> option R) :
  matches (Opt r) pos s g k
  = match matches r pos s g k with
    | Some m => Some m
    | None => k pos s g
    end.
Proof. reflexivity. Qed.

(** The release part of the pattern takes the whole dotted text when what
    follows does not start with a digit. *)
Lemma release_part_dotted {R} (d : dotted) (suffix : str)
    (k : nat -> str -> groups -> option R) (m : R) :
  well_formed d -> not_next digit suffix ->
  k (length (dotted_text d)) suffix [] = Some m ->
  matches (Seq (Plus digit) (Seq (Char any) (Seq (Plus digit)
             (Seq (Char any) (Plus digit)))))
          0 (dotted_text d ++ suffix) [] k
  = Some m.
Proof.
  destruct d as [d1 c1 d2 c2 d3]. unfold well_formed, dotted_text, digits.
  cbn [major sep1 minor sep2 patch].
  intros ([N1 D1] & [N2 D2] & [N3 D3] & A1 & S1 & A2 & S2) Hsuffix Hk.
  rewrite <- app_assoc. cbn [app]. rewrite <- app_assoc. cbn [app].
  rewrite matches_Seq. apply plus_all; [exact N1|exact D1|exact S1|].
  rewrite matches_Seq, (matches_Char _ _ _ _ _ _ A1), matches_Seq.
  apply plus_all; [exact N2|exact D2|exact S2|].
  rewrite matches_Seq, (matches_Char _ _ _ _ _ _ A2).
  apply plus_all; [exact N3|exact D3|exact Hsuffix|].
  rewrite <- Hk. f_equal. rewrite !length_app. cbn [length].
  rewrite !length_app. cbn [length]. lia.
Qed.

(** The match of the whole pattern on a version of the usual shape. *)
Lemma versions_re_dotted (d : dotted) :
  well_formed d ->
  re_match VERSIONS_RE (dotted_text d)
  = Some (length (dotted_text d), [(1%nat, dotted_text d)]).
Proof.
  intros Hd. unfold re_match, VERSIONS_RE.
  rewrite matches_Seq, matches_Group.
  rewrite <- (app_nil_r (dotted_text d)) at 1.
  apply release_part_dotted; [exact Hd|exact I|].
  rewrite matches_Opt, matches_Group, matches_Seq. cbn [matches].
  now rewrite Nat.sub_0_r, firstn_all.
Qed.

Lemma versions_re_dotted_prerelease (d : dotted) (letters number : str) :
  well_formed d ->
  letters <> [] -> forallb lower letters = true -> digits number ->
  re_match VERSIONS_RE (dotted_text d ++ letters ++ number)
  = Some ((length (dotted_text d) + length letters + length number)%nat,
          [(2%nat, letters ++ number); (1%nat, dotted_text d)]).
Proof.
  intros Hd Hl Ll [Hn Dn]. unfold re_match, VERSIONS_RE.
  rewrite matches_Seq, matches_Group.
  apply release_part_dotted; [exact Hd| |].
  { destruct letters as [|c letters]; [congruence|]. simpl in *.
    apply andb_true_iff in Ll as [Lc _]. now apply lower_not_digit. }
  rewrite matches_Opt, matches_Group, matches_Seq.
  rewrite Nat.sub_0_r, take_app_length.
  rewrite plus_all with (m := ((length (dotted_text d) + length letters
                                + length number)%nat,
                               [(2%nat, letters ++ number);
                                (1%nat, dotted_text d)]));
    [reflexivity|exact Hl|exact Ll| |].
  - destruct number as [|c number]; [congruence|]. simpl in *.
    apply andb_true_iff in Dn as [Dc _]. now apply digit_not_lower.
  - rewrite <- (app_nil_r number) at 1.
    apply plus_all; [exact Hn|exact Dn|exact I|].
    replace (length (dotted_text d) + length letters + length number
             - length (dotted_text d))%nat
      with (length (letters ++ number)) by (rewrite length_app; lia).
    now rewrite firstn_all.
Qed.

(** For versions of the usual shape, the release part is the dotted text
    and the pre-release part, letters and then digits, is put back behind
    the delimiter. *)
Lemma rebuild_version_dotted (d : dotted) (letters number delim : str) :
  well_formed d ->
  letters <> [] -> forallb lower letters = true -> digits number ->
  rebuild_version (dotted_text d) delim = Ok (dotted_text d)
  /\ rebuild_version (dotted_text d ++ letters ++ number) delim
     = Ok (dotted_text d ++ delim ++ letters ++ number).
Proof.
  intros Hd Hl Ll Hn. unfold rebuild_version. split.
  - now rewrite versions_re_dotted.
  - rewrite versions_re_dotted_prerelease by assumption.
    cbn [group Nat.eqb default].
    destruct letters as [|c letters]; [congruence|]. reflexivity.
Qed.

(** The result of [rebuild_version] in terms of the groups of the match. *)
Lemma rebuild_version_groups (version delim : str) :
  match re_match VERSIONS_RE version with
  | None =>
      rebuild_version version delim
      = Raise (ValueError (Invalid_version version))
  | Some (_, version_elems) =>
      exists release prerelease rest,
        version = release ++ prerelease ++ rest
        /\ group 1 version_elems = Some release
        /\ default [] (group 2 version_elems) = prerelease
        /\ rebuild_version version delim
           = Ok (match prerelease with
                 | [] => release
                 | _ :: _ => release ++ delim ++ prerelease
                 end)
  end.
Proof.
  unfold rebuild_version.
  destruct (re_match VERSIONS_RE version) as [[stop g]|] eqn:E; [|reflexivity].
  apply two_groups_match in E; [|reflexivity|reflexivity].
  destruct E as (rel & rest & -> & H1 & [[H2 _]|(pre & rest' & -> & H2 & _)]).
  - exists rel, [], rest. rewrite H1, H2. now repeat split.
  - exists rel, pre, rest'. rewrite H1, H2. repeat split.
    now destruct pre.
Qed.

(** C6.  [rebuild_version] on ["4.5.6rc1"] and ["4.5.6"] with the
    delimiter ["~"] gives ["4.5.6~rc1"] and ["4.5.6"].  In general, a
    version the pattern does not match raises [ValueError]; for one it
    matches, the release part (group 1) and the pre-release part (group 2,
    empty when absent) are consecutive pieces at the start of the version,
    and the result is the release part, followed by the delimiter and the
    pre-release part when there is one.  For a version made of three runs
    of digits with two separators, the release part is that triple: it is
    returned as it is, and with letters and digits behind it, these are put
    back behind the delimiter. *)
Theorem rebuild_version_reinserts_prerelease :
  rebuild_version (py "4.5.6rc1") (py "~") = Ok (py "4.5.6~rc1")
  /\ rebuild_version (py "4.5.6") (py "~") = Ok (py "4.5.6")
  /\ (forall version delim : str,
        match re_match VERSIONS_RE version with
        | None =>
            rebuild_version version delim
            = Raise (ValueError (Invalid_version version))
        | Some (_, version_elems) =>
            exists release prerelease rest,
              version = release ++ prerelease ++ rest
              /\ group 1 version_elems = Some release
              /\ default [] (group 2 version_elems) = prerelease
              /\ rebuild_version version delim
                 = Ok (match prerelease with
                       | [] => release
                       | _ :: _ => release ++ delim ++ prerelease
                       end)
        end)
  /\ (forall (d : dotted) (letters number delim : str),
        well_formed d ->
        letters <> [] -> forallb lower letters = true -> digits number ->
        rebuild_version (dotted_text d) delim = Ok (dotted_text d)
        /\ rebuild_version (dotted_text d ++ letters ++ number) delim
           = Ok (dotted_text d ++ delim ++ letters ++ number)).
Proof.
  split; [vm_compute; reflexivity|]. split; [vm_compute; reflexivity|].
  split; [exact rebuild_version_groups|exact rebuild_version_dotted].
Qed.

Lemma rebuild_version_reinserts_prerelease_witness :
  rebuild_version (py "12.0.3") (py "-") = Ok (py "12.0.3")
  /\ rebuild_version (py "12.0.3" ++ py "beta" ++ py "2") (py "-")
     = Ok (py "12.0.3" ++ py "-" ++ py "beta" ++ py "2").
Proof.
  apply (proj2 (proj2 (proj2 rebuild_version_reinserts_prerelease))
           {| major := py "12"; sep1 := 46; minor := py "0"; sep2 := 46;
              patch := py "3" |} (py "beta") (py "2") (py "-")).
  - vm_compute. repeat split; discriminate.
  - discriminate.
  - reflexivity.
  - split; [discriminate|reflexivity].
Defined.

(** **** The validators *)

Section Validation.

Variable strptime : str -> bool.

Lemma get_In {A} (d : list (str * A)) (f : str) (a : A) :
  get d f = Some a -> In (f, a) d.
Proof.
  induction d as [|[k b] d IH]; simpl; [discriminate|].
  unfold Py.str_eqb. case_bool_decide as Hk.
  - intros H. inversion H; subst. now left.
  - intros H. right. now apply IH.
Qed.

(** A validator raises nothing but [TypeError], and only on a value that
    should have been a string. *)
Lemma validator_raises (f : str) (v : value)
    (validator : value -> result bool) (e : exn) :
  get (NECESSARY_FIELDS strptime) f = Some validator ->
  validator v = Raise e ->
  e = TypeError /\ string_valued (f, v) = false.
Proof.
  intros Hget Hv. apply get_In in Hget.
  unfold NECESSARY_FIELDS in Hget. simpl In in Hget.
  repeat (destruct Hget as [Hget|Hget];
          [inversion Hget; subst f validator; clear Hget;
           destruct v; simpl in Hv; try discriminate;
           inversion Hv; split; reflexivity|]).
  destruct Hget.
Qed.

Lemma validate_release_ok (r : release) :
  validate_release strptime r = Ok tt <-> Forall (item_passes strptime) r.
Proof.
  induction r as [|[f v] r IH]; cbn [validate_release].
  - split; [constructor|reflexivity].
  - rewrite Forall_cons. unfold item_passes at 1. cbn [fst snd].
    destruct (get (NECESSARY_FIELDS strptime) f) as [validator|] eqn:Hget.
    + destruct (validator v) as [[|]|e] eqn:Hv.
      * rewrite IH. split; [|tauto].
        intros H. split; [|exact H]. exists validator. now split.
      * split; [discriminate|]. intros [(validator' & Hg & Hv') _]. congruence.
      * split; [discriminate|]. intros [(validator' & Hg & Hv') _]. congruence.
    + split; [discriminate|]. intros [(validator' & Hg & _) _]. congruence.
Qed.

Lemma validate_versions_ok (vs : list release) :
  validate_versions strptime vs = Ok tt
  <-> Forall (Forall (item_passes strptime)) vs.
Proof.
  induction vs as [|r vs IH]; cbn [validate_versions].
  - split; [constructor|reflexivity].
  - rewrite Forall_cons, <- validate_release_ok.
    destruct (validate_release strptime r) as [[]|e] eqn:Hr.
    + rewrite IH. tauto.
    + split; [discriminate|]. intros [H _]. discriminate H.
Qed.

Lemma validate_release_raised (r : release) (e : exn) :
  validate_release strptime r = Raise e ->
  exists item, In item r /\ raised_by e item.
Proof.
  induction r as [|[f v] r IH]; cbn [validate_release]; [discriminate|].
  destruct (get (NECESSARY_FIELDS strptime) f) as [validator|] eqn:Hget.
  - destruct (validator v) as [[|]|e'] eqn:Hv; intros H.
    + destruct (IH H) as (item & Hin & Hr).
      exists item. split; [now right|exact Hr].
    + inversion H; subst. exists (f, v). split; [now left|]. right. now left.
    + inversion H; subst. exists (f, v). split; [now left|].
      destruct (validator_raises _ _ _ _ Hget Hv) as [-> Hs].
      right. right. now split.
  - intros H. inversion H; subst. exists (f, v). split; [now left|]. now left.
Qed.

Lemma validate_versions_raised (vs : list release) (e : exn) :
  validate_versions strptime vs = Raise e ->
  exists release item,
    In release vs /\ In item release /\ raised_by e item.
Proof.
  induction vs as [|r vs IH]; cbn [validate_versions]; [discriminate|].
  destruct (validate_release strptime r) as [[]|e'] eqn:Hr; intros H.
  - destruct (IH H) as (r' & item & Hin & Hi & Hb).
    exists r', item. split; [now right|now split].
  - inversion H; subst.
    destruct (validate_release_raised _ _ Hr) as (item & Hi & Hb).
    exists r, item. split; [now left|now split].
Qed.

Lemma offending_item_fails (item : str * value) :
  item_offends strptime item -> ~ item_passes strptime item.
Proof.
  destruct item as [f v]. intros [Hnone|[Hf Ht]] (validator & Hget & Hv);
    simpl in *.
  - congruence.
  - subst f. vm_compute in Hget. inversion Hget; subst validator; clear Hget.
    destruct v as [s| | | |]; try discriminate.
    rewrite (Ht s eq_refl) in Hv. discriminate.
Qed.

Lemma kept_items_pass (keep : str -> bool) (vs : list release) :
  Forall (Forall (item_passes strptime)) vs ->
  Forall (Forall (item_passes strptime))
    (map (List.filter (fun item : str * value => keep item.1)) vs).
Proof.
  induction 1 as [|r vs Hr _ IH]; cbn [map]; constructor; [|exact IH].
  rewrite List.Forall_forall in *. intros item Hin.
  apply List.filter_In in Hin as [Hin _]. now apply Hr.
Qed.

End Validation.

(** C7 (amended).  When a release has an item whose field is not
    recognised, or a [time] that is not a string [strptime] accepts,
    [validate_versions] raises; the exception is a [ValueError] whenever
    every value given to a pattern or to [strptime] is a string (on another
    value these raise [TypeError], which is not caught).  When every item of
    every release has a recognised field and passes its validator,
    [validate_versions] returns. *)
Theorem validate_versions_raises_or_returns (strptime : str -> bool)
    (versions : list release) :
  (forall (release : release) (item : str * value),
      In release versions -> In item release -> item_offends strptime item ->
      exists e,
        validate_versions strptime versions = Raise e
        /\ (Forall (Forall (fun i => string_valued i = true)) versions ->
            exists msg, e = ValueError msg))
  /\ (Forall (Forall (item_passes strptime)) versions ->
      validate_versions strptime versions = Ok tt).
Proof.
  split; [|apply validate_versions_ok].
  intros r item Hr Hi Hoff.
  destruct (validate_versions strptime versions) as [[]|e] eqn:E.
  - exfalso. apply validate_versions_ok in E.
    rewrite List.Forall_forall in E. specialize (E r Hr).
    rewrite List.Forall_forall in E. specialize (E item Hi).
    exact (offending_item_fails strptime item Hoff E).
  - exists e. split; [reflexivity|]. intros Htyped.
    destruct (validate_versions_raised _ _ _ E)
      as (r' & item' & Hr' & Hi' & [->|[->|[-> Hs]]]); eauto.
    rewrite List.Forall_forall in Htyped. specialize (Htyped r' Hr').
    rewrite List.Forall_forall in Htyped. specialize (Htyped item' Hi').
    simpl in Htyped. congruence.
Qed.

Lemma validate_versions_raises_or_returns_witness :
  (exists e,
      validate_versions strptime_ascii
        [[(py "version", VStr (py "4.5.6")); (py "colour", VStr (py "red"))]]
      = Raise e
      /\ exists msg, e = ValueError msg)
  /\ validate_versions strptime_ascii
       [[(py "version", VStr (py "4.5.6rc1"));
         (py "time", VStr (py "2023/01/15 10:30"))]]
     = Ok tt.
Proof.
  split.
  - destruct (proj1 (validate_versions_raises_or_returns strptime_ascii
                       [[(py "version", VStr (py "4.5.6"));
                         (py "colour", VStr (py "red"))]])
                [(py "version", VStr (py "4.5.6"));
                 (py "colour", VStr (py "red"))]
                (py "colour", VStr (py "red")))
      as (e & He & Hmsg).
    + now left.
    + right. now left.
    + left. vm_compute. reflexivity.
    + exists e. split; [exact He|]. apply Hmsg.
      repeat constructor.
  - apply (proj2 (validate_versions_raises_or_returns strptime_ascii
                    [[(py "version", VStr (py "4.5.6rc1"));
                      (py "time", VStr (py "2023/01/15 10:30"))]])).
    repeat constructor; eexists; (split; [reflexivity|vm_compute; reflexivity]).
Defined.

(** C7, as stated, fails: a [time] that is a number is not in the format,
    and validation ends with the [TypeError] of [strptime]. *)
Lemma offending_item_raises_ValueError_fails :
  ~ offending_item_raises_ValueError.
Proof.
  intros H.
  destruct (H strptime_ascii [[(py "time", VInt 20230115)]]
              [(py "time", VInt 20230115)] (py "time", VInt 20230115))
    as (msg & Hmsg).
  - now left.
  - now left.
  - right. split; [reflexivity|]. intros s Hs. discriminate Hs.
  - vm_compute in Hmsg. discriminate Hmsg.
Qed.

(** C10.  [validate_versions] validates only the fields that are present
    in each release, and a missing field is never reported.  The empty
    release passes; releases whose items have recognised fields and pass
    their validators pass, and they still pass when any of their fields
    are left out; and an exception is always about an item that is
    present: its field is not recognised, its value is incorrect, or its
    value is not the string a pattern or [strptime] needs. *)
Theorem missing_fields_are_not_reported (strptime : str -> bool)
    (versions : list release) :
  validate_versions strptime [[]] = Ok tt
  /\ (Forall (Forall (item_passes strptime)) versions ->
      validate_versions strptime versions = Ok tt
      /\ forall keep : str -> bool,
           validate_versions strptime
             (map (List.filter (fun item : str * value => keep item.1))
                  versions)
           = Ok tt)
  /\ (forall e : exn,
        validate_versions strptime versions = Raise e ->
        exists (release : release) (item : str * value),
          In release versions /\ In item release
          /\ raised_by e item).
Proof.
  split; [reflexivity|]. split.
  - intros H. split; [now apply validate_versions_ok|].
    intros keep. now apply validate_versions_ok, kept_items_pass.
  - intros e. apply validate_versions_raised.
Qed.

Lemma missing_fields_are_not_reported_witness :
  validate_versions strptime_ascii
    [[(py "version", VStr (py "4.5.6rc1"));
      (py "time", VStr (py "2023/01/15 10:30"))]]
  = Ok tt
  /\ validate_versions strptime_ascii
       (map (List.filter
               (fun item : str * value =>
                  Py.str_eqb item.1 (py "version")))
            [[(py "version", VStr (py "4.5.6rc1"));
              (py "time", VStr (py "2023/01/15 10:30"))]])
     = Ok tt.
Proof.
  destruct (proj1 (proj2 (missing_fields_are_not_reported strptime_ascii
                            [[(py "version", VStr (py "4.5.6rc1"));
                              (py "time", VStr (py "2023/01/15 10:30"))]])))
    as [Hall Hkeep].
  - repeat constructor; eexists; (split; [reflexivity|vm_compute; reflexivity]).
  - split; [exact Hall|apply Hkeep].
Defined.

End VersionsFacts.

(** * Further properties of the login widgets *)

Module LoginMore.
Import Py Login LoginFacts.

Lemma login_spinner_set_username (text : str) (f : LoginForm) :
  login_spinner (set_username text f) = login_spinner f.
Proof. unfold set_username. now destruct (str_eqb _ _). Qed.

Lemma login_spinner_set_password (text : str) (f : LoginForm) :
  login_spinner (set_password text f) = login_spinner f.
Proof. unfold set_password. now destruct (str_eqb _ _). Qed.

Lemma login_spinner_reset (f : LoginForm) :
  login_spinner (LoginForm_reset f) = login_spinner f.
Proof.
  unfold LoginForm_reset.
  now rewrite login_spinner_set_password, login_spinner_set_username.
Qed.

(** X1.  Whatever the future of a login or of a 2FA submission did, the
    handler of its result leaves the spinner of its form stopped.  The
    login handler swallows [ValueError] and lets any other exception out;
    the 2FA handler lets every exception out. *)
Theorem result_handlers_stop_the_spinner (fut : future) (w : LoginWidget) :
  login_spinner (login_form (_on_login_result fut w).1) = false
  /\ (_on_login_result fut w).2
     = match fut with
       | Raises ValueError | Returns _ => None
       | Raises e => Some e
       end
  /\ tfa_spinner (two_factor_auth_form (_on_2fa_submission_result fut w).1)
     = false
  /\ (_on_2fa_submission_result fut w).2
     = match fut with
       | Raises e => Some e
       | Returns _ => None
       end.
Proof.
  destruct fut as [[[] []]|[]]; simpl; repeat split;
    try apply login_spinner_reset.
Qed.

(** X2.  An event appends to the signals emitted and removes none, and
    [user-logged-in] is among the new ones exactly when the event is a
    login result or a 2FA result that is authenticated and asks for no
    second factor. *)
Theorem user_logged_in_only_when_authenticated (ev : event)
    (w : LoginWidget) :
  exists new : list signal,
    emitted (step ev w) = emitted w ++ new
    /\ (In user_logged_in new <-> logs_in ev = true).
Proof.
  assert (Hno : forall l : list signal, l = l ++ []) by
    (intros l; now rewrite app_nil_r).
  destruct ev as [t|t|t| | | |fut| |fut|]; simpl step.
  1-3, 6, 8, 10: exists []; split; [apply Hno|simpl; split; [tauto|discriminate]].
  1-2: unfold _on_press_enter;
       destruct (login_button_sensitive (login_form w)); exists [];
       (split; [apply Hno|simpl; split; [tauto|discriminate]]).
  - destruct fut as [[[] []]|[]]; simpl.
    + exists [user_authenticated true]. split; [reflexivity|].
      simpl. split; [intros [H|[]]; discriminate H|discriminate].
    + exists [user_authenticated false; user_logged_in].
      split; [now rewrite <- app_assoc|]. simpl. tauto.
    + exists [login_error]. split; [reflexivity|].
      simpl. split; [intros [H|[]]; discriminate H|discriminate].
    + exists [login_error]. split; [reflexivity|].
      simpl. split; [intros [H|[]]; discriminate H|discriminate].
    + exists [login_error]. split; [reflexivity|].
      simpl. split; [intros [H|[]]; discriminate H|discriminate].
    + exists []. split; [apply Hno|simpl; split; [tauto|discriminate]].
    + exists []. split; [apply Hno|simpl; split; [tauto|discriminate]].
    + exists []. split; [apply Hno|simpl; split; [tauto|discriminate]].
    + exists []. split; [apply Hno|simpl; split; [tauto|discriminate]].
  - destruct fut as [[[] []]|e]; simpl.
    + exists []. split; [apply Hno|simpl; split; [tauto|discriminate]].
    + exists [two_factor_auth_successful; user_logged_in].
      split; [now rewrite <- app_assoc|]. simpl. tauto.
    + exists [session_expired]. split; [reflexivity|].
      simpl. split; [intros [H|[]]; discriminate H|discriminate].
    + exists [session_expired]. split; [reflexivity|].
      simpl. split; [intros [H|[]]; discriminate H|discriminate].
    + exists []. split; [apply Hno|simpl; split; [tauto|discriminate]].
Qed.


(** X3.  After a login result with [authenticated] true, arriving in a
    state the widget can reach, the login form holds no credentials: the
    username, the password and the error message are empty, the button is
    insensitive, and Enter does nothing. *)
Theorem authenticated_login_clears_credentials (w : LoginWidget)
    (two_factor_auth_required : bool) :
  reachable w ->
  let w' := step (login_done
                    (Returns {| authenticated := true;
                                twofa_required := two_factor_auth_required |}))
                 w in
  username (login_form w') = []
  /\ password (login_form w') = []
  /\ error_message (login_form w') = []
  /\ login_button_sensitive (login_form w') = false
  /\ step username_enter w' = w'
  /\ step password_enter w' = w'.
Proof.
  intros Hr w'.
  assert (Hc : username (login_form w') = [] /\ password (login_form w') = []
               /\ error_message (login_form w') = []).
  { subst w'. destruct two_factor_auth_required; simpl; apply reset_clears. }
  assert (Hoff : login_button_sensitive (login_form w') = false).
  { rewrite (reachable_follows w' (reachable_step _ _ Hr)).
    destruct Hc as (-> & _ & _). reflexivity. }
  destruct Hc as (Hu & Hp & He). repeat split; try assumption;
    simpl; unfold _on_press_enter; now rewrite Hoff.
Qed.

Lemma authenticated_login_clears_credentials_witness :
  let w' := step (login_done
                    (Returns {| authenticated := true;
                                twofa_required := false |}))
                 (run [username_changed (py "alice");
                       password_changed (py "secret"); submit_login] init) in
  username (login_form w') = []
  /\ password (login_form w') = []
  /\ error_message (login_form w') = []
  /\ login_button_sensitive (login_form w') = false
  /\ step username_enter w' = w'
  /\ step password_enter w' = w'.
Proof.
  apply (authenticated_login_clears_credentials
           (run [username_changed (py "alice");
                 password_changed (py "secret"); submit_login] init) false).
  apply reachable_step, reachable_step, reachable_step, reachable_init.
Defined.

(** X4.  In a state the widget can reach in which the stripped username
    and the stripped password are both non-empty, the button is sensitive
    and Enter in either entry is a click on it: the spinner starts and the
    controller receives one [login] call with the texts as they were
    typed, not stripped. *)
Theorem enter_submits_when_both_provided (w : LoginWidget) :
  reachable w ->
  strip (username (login_form w)) <> [] ->
  strip (password (login_form w)) <> [] ->
  login_button_sensitive (login_form w) = true
  /\ step username_enter w = step submit_login w
  /\ step password_enter w = step submit_login w
  /\ controller_calls (step username_enter w)
     = controller_calls w
       ++ [login (username (login_form w)) (password (login_form w))]
  /\ login_spinner (login_form (step username_enter w)) = true.
Proof.
  intros Hr Hu Hp.
  assert (Hon : login_button_sensitive (login_form w) = true).
  { rewrite (reachable_follows w Hr). apply andb_true_iff.
    split; now apply provided_iff. }
  split; [exact Hon|].
  simpl. unfold _on_press_enter. rewrite Hon. simpl. repeat split.
Qed.

Lemma enter_submits_when_both_provided_witness :
  let w := run [username_changed (py " alice"); password_changed (py "pw")]
               init in
  login_button_sensitive (login_form w) = true
  /\ step username_enter w = step submit_login w
  /\ step password_enter w = step submit_login w
  /\ controller_calls (step username_enter w)
     = controller_calls w
       ++ [login (username (login_form w)) (password (login_form w))]
  /\ login_spinner (login_form (step username_enter w)) = true.
Proof.
  apply (enter_submits_when_both_provided
           (run [username_changed (py " alice"); password_changed (py "pw")]
                init)).
  - apply reachable_step, reachable_step, reachable_init.
  - vm_compute. discriminate.
  - vm_compute. discriminate.
Defined.

Lemma active_and_visible (w : LoginWidget) :
  reachable w -> active_form w = visible_child w.
Proof.
  induction 1 as [|ev w _ IH]; [reflexivity|].
  destruct ev as [t|t|t| | | |fut| |fut|]; simpl step; try exact IH.
  - unfold _on_press_enter.
    now destruct (login_button_sensitive (login_form w)).
  - unfold _on_press_enter.
    now destruct (login_button_sensitive (login_form w)).
  - destruct fut as [[[] []]|[]]; simpl; try exact IH; reflexivity.
  - destruct fut as [[[] []]|e]; simpl; try exact IH; reflexivity.
  - reflexivity.
Qed.

(** X5.  In every state the widget can reach, the form recorded as the
    active one, once there is one, is the child the stack was last told to
    show: the two are never out of step. *)
Theorem active_form_is_shown (w : LoginWidget) (f : form) :
  reachable w -> active_form w = Some f -> visible_child w = Some f.
Proof.
  intros Hr Ha. now rewrite <- (active_and_visible w Hr).
Qed.

Lemma active_form_is_shown_witness :
  visible_child
    (run [submit_login;
          login_done (Returns {| authenticated := true;
                                 twofa_required := true |})] init)
  = Some two_factor_auth_form_child.
Proof.
  apply (active_form_is_shown
           (run [submit_login;
                 login_done (Returns {| authenticated := true;
                                        twofa_required := true |})] init)
           two_factor_auth_form_child).
  - apply reachable_step, reachable_step, reachable_init.
  - reflexivity.
Defined.

(** X6.  A login result with [authenticated] false leaves the handler
    without an exception, shows [Wrong credentials.] and emits
    [login-error] alone; the texts of the entries, the state of the button,
    the form on display, the 2FA form and the calls of the controller stay
    as they were, so the form can be submitted again. *)
Theorem rejected_login_keeps_the_form (w : LoginWidget)
    (two_factor_auth_required : bool) :
  let done :=
    _on_login_result
      (Returns {| authenticated := false;
                  twofa_required := two_factor_auth_required |}) w in
  done.2 = None
  /\ error_message (login_form done.1) = py "Wrong credentials."
  /\ emitted done.1 = emitted w ++ [login_error]
  /\ username (login_form done.1) = username (login_form w)
  /\ password (login_form done.1) = password (login_form w)
  /\ login_button_sensitive (login_form done.1)
     = login_button_sensitive (login_form w)
  /\ active_form done.1 = active_form w
  /\ visible_child done.1 = visible_child w
  /\ two_factor_auth_form done.1 = two_factor_auth_form w
  /\ controller_calls done.1 = controller_calls w.
Proof. repeat split. Qed.

(** X7.  A 2FA result with [authenticated] true leaves the handler without
    an exception and does not change the form on display or the login
    form.  While 2FA is still required, the 2FA form shows [Wrong 2FA
    code.], keeps the code typed and nothing is emitted.  Otherwise
    [two-factor-auth-successful] and then [user-logged-in] are emitted and
    the code and the error message of the 2FA form are emptied. *)
Theorem authenticated_two_factor_result (w : LoginWidget)
    (still_required : bool) :
  let done :=
    _on_2fa_submission_result
      (Returns {| authenticated := true;
                  twofa_required := still_required |}) w in
  done.2 = None
  /\ active_form done.1 = active_form w
  /\ visible_child done.1 = visible_child w
  /\ login_form done.1 = login_form w
  /\ if still_required
     then tfa_error_message (two_factor_auth_form done.1)
          = py "Wrong 2FA code."
          /\ two_factor_auth_code (two_factor_auth_form done.1)
             = two_factor_auth_code (two_factor_auth_form w)
          /\ emitted done.1 = emitted w
     else tfa_error_message (two_factor_auth_form done.1) = []
          /\ two_factor_auth_code (two_factor_auth_form done.1) = []
          /\ emitted done.1
             = emitted w ++ [two_factor_auth_successful; user_logged_in].
Proof.
  destruct still_required; simpl; repeat split.
  now rewrite <- app_assoc.
Qed.

Lemma reset_again (f : LoginForm) :
  LoginForm_reset (LoginForm_reset f) = LoginForm_reset f.
Proof.
  destruct (reset_clears f) as (Hu & Hp & He).
  destruct (LoginForm_reset f) as [e u p b sp]. simpl in *. subst.
  reflexivity.
Qed.

(** X8.  [LoginWidget.reset] shows the login form with empty username,
    password and error message, whatever the state, emits nothing, calls
    nothing, and a second [reset] changes nothing more. *)
Theorem widget_reset_shows_empty_login_form (w : LoginWidget) :
  active_form (reset w) = Some login_form_child
  /\ visible_child (reset w) = Some login_form_child
  /\ username (login_form (reset w)) = []
  /\ password (login_form (reset w)) = []
  /\ error_message (login_form (reset w)) = []
  /\ two_factor_auth_form (reset w) = two_factor_auth_form w
  /\ emitted (reset w) = emitted w
  /\ controller_calls (reset w) = controller_calls w
  /\ reset (reset w) = reset w.
Proof.
  repeat split; try apply reset_clears.
  unfold reset, display_form, with_login_form. simpl.
  now rewrite reset_again.
Qed.

End LoginMore.

Module PasswordEntryFacts.
Import PasswordEntry.

Lemma pressed_S (n : nat) :
  pressed (S n) = _on_change_password_visibility_icon_press (pressed n).
Proof. reflexivity. Qed.

Lemma pressed_state (n : nat) :
  pressed n
  = {| visibility := Nat.odd n;
       secondary_icon := if Nat.odd n then _hide_pixbuff else _show_pixbuff;
       icon_activatable := true |}.
Proof.
  induction n as [|n IH]; [reflexivity|].
  rewrite pressed_S, IH, Nat.odd_succ, <- Nat.negb_odd.
  unfold _on_change_password_visibility_icon_press. simpl.
  now destruct (Nat.odd n).
Qed.

(** X9.  After [n] presses of its icon the password entry shows its text
    exactly when [n] is odd, and the icon is the one that offers the other
    state: [show] while the text is hidden, [hide] while it is shown.
    Pressing twice gives back the same entry. *)
Theorem icon_follows_visibility (n : nat) :
  visibility (pressed n) = Nat.odd n
  /\ secondary_icon (pressed n)
     = (if Nat.odd n then _hide_pixbuff else _show_pixbuff)
  /\ pressed (S (S n)) = pressed n.
Proof.
  rewrite !pressed_state. repeat split.
Qed.

End PasswordEntryFacts.

(** * Further properties of the signal-connect queue *)

Module AppMore.
Import Py App AppFacts.

Lemma follow_raises (segments : list str) :
  forall (o : pyobj) (e : exn),
    follow o segments = Raise e -> e = AttributeError.
Proof.
  induction segments as [|seg rest IH]; intros o e; simpl; [discriminate|].
  unfold getattr. destruct (assoc seg (attrs_of o)) as [o'|].
  - apply IH.
  - intros H. now inversion H.
Qed.

Lemma resolve_raises (w : pyobj) (r : request) (e : exn) :
  resolve w r = Raise e -> In e resolution_errors.
Proof.
  destruct r as [spec cb]. unfold resolve, resolution_errors.
  destruct (split _ spec) as [|p [|sg [|? ?]]];
    try (intros H; inversion H; simpl; tauto).
  destruct (follow w _) as [[oid sigs ?|?]|e'] eqn:E.
  - unfold connect. destruct (existsb _ sigs); intros H; inversion H.
    simpl; tauto.
  - intros H; inversion H. simpl; tauto.
  - intros H; inversion H; subst. apply follow_raises in E. subst.
    simpl; tauto.
Qed.

Lemma process_loop_outcome (q : list request) :
  forall a : app,
    signal_connect_queue a = q ->
    exists (pre : list request) (conns : list connection)
           (rest : list request),
      q = pre ++ rest
      /\ Forall2 (fun r c => resolve (window_object a) r = Ok c) pre conns
      /\ window (process_loop (length q) a).1 = window a
      /\ app_ready (process_loop (length q) a).1 = app_ready a
      /\ connections (process_loop (length q) a).1 = connections a ++ conns
      /\ match (process_loop (length q) a).2 with
         | None =>
             rest = []
             /\ signal_connect_queue (process_loop (length q) a).1 = []
         | Some e =>
             In e resolution_errors
             /\ exists r rest',
                  rest = r :: rest'
                  /\ resolve (window_object a) r = Raise e
                  /\ signal_connect_queue (process_loop (length q) a).1
                     = rest'
         end.
Proof.
  induction q as [|r q IH]; intros a Hq.
  - exists [], [], []. simpl. rewrite app_nil_r.
    split; [reflexivity|]. split; [constructor|]. now repeat split.
  - cbn [length process_loop]. rewrite Hq.
    change (window_object (set_queue q a)) with (window_object a).
    destruct (resolve (window_object a) r) as [c|e] eqn:Hr.
    + destruct (IH (add_connection c (set_queue q a)) eq_refl)
        as (pre & conns & rest & Hsplit & HF & Hw & Hrd & Hc & Hout).
      exists (r :: pre), (c :: conns), rest.
      split; [now rewrite Hsplit|]. split; [now constructor|].
      split; [exact Hw|]. split; [exact Hrd|].
      split; [rewrite Hc; simpl; now rewrite <- app_assoc|exact Hout].
    + exists [], [], (r :: q). simpl. rewrite app_nil_r.
      split; [reflexivity|]. split; [constructor|].
      split; [reflexivity|]. split; [reflexivity|]. split; [reflexivity|].
      split; [exact (resolve_raises _ _ _ Hr)|].
      exists r, q. now repeat split.
Qed.

(** X10.  Once the window exists, whatever the queue holds,
    [_process_signal_connect_queue] connects a front part of it, one
    [connect] per request and in the order of the queue, and touches
    neither the window nor the older connections.  Either all requests
    resolved and the queue is empty, or the first request that does not
    resolve ended the loop with its exception ([ValueError],
    [AttributeError], [AssertionError] or [TypeError], never the
    [IndexError] of a [pop] on an empty queue); that request is gone from
    the queue and the ones behind it stay queued, unconnected. *)
Theorem process_queue_outcome (a : app) (w : pyobj) :
  window a = Some w ->
  exists (pre : list request) (conns : list connection)
         (rest : list request),
    signal_connect_queue a = pre ++ rest
    /\ Forall2 (fun r c => resolve w r = Ok c) pre conns
    /\ window (_process_signal_connect_queue a).1 = Some w
    /\ app_ready (_process_signal_connect_queue a).1 = app_ready a
    /\ connections (_process_signal_connect_queue a).1
       = connections a ++ conns
    /\ match (_process_signal_connect_queue a).2 with
       | None =>
           rest = []
           /\ signal_connect_queue (_process_signal_connect_queue a).1 = []
       | Some e =>
           In e resolution_errors
           /\ exists r rest',
                rest = r :: rest'
                /\ resolve w r = Raise e
                /\ signal_connect_queue (_process_signal_connect_queue a).1
                   = rest'
       end.
Proof.
  intros Hw. unfold _process_signal_connect_queue.
  assert (Hobj : window_object a = w) by (unfold window_object; now rewrite Hw).
  destruct (process_loop_outcome (signal_connect_queue a) a eq_refl)
    as (pre & conns & rest & Hsplit & HF & Hwin & Hrd & Hc & Hout).
  rewrite Hobj in HF, Hout. rewrite Hw in Hwin.
  exists pre, conns, rest. repeat (split; [assumption|]). exact Hout.
Qed.

Lemma process_queue_outcome_witness :
  let a := {| window := Some sample_window;
              signal_connect_queue :=
                [(py "main_widget::main-widget-ready", 1);
                 (py "application_name::notify", 2);
                 (py "main_widget.login_widget::user-logged-in", 3)];
              connections := []; app_ready := 1 |} in
  exists (pre : list request) (conns : list connection)
         (rest : list request),
    signal_connect_queue a = pre ++ rest
    /\ Forall2 (fun r c => resolve sample_window r = Ok c) pre conns
    /\ window (_process_signal_connect_queue a).1 = Some sample_window
    /\ app_ready (_process_signal_connect_queue a).1 = app_ready a
    /\ connections (_process_signal_connect_queue a).1
       = connections a ++ conns
    /\ match (_process_signal_connect_queue a).2 with
       | None =>
           rest = []
           /\ signal_connect_queue (_process_signal_connect_queue a).1 = []
       | Some e =>
           In e resolution_errors
           /\ exists r rest',
                rest = r :: rest'
                /\ resolve sample_window r = Raise e
                /\ signal_connect_queue (_process_signal_connect_queue a).1
                   = rest'
       end.
Proof.
  apply (process_queue_outcome
           {| window := Some sample_window;
              signal_connect_queue :=
                [(py "main_widget::main-widget-ready", 1);
                 (py "application_name::notify", 2);
                 (py "main_widget.login_widget::user-logged-in", 3)];
              connections := []; app_ready := 1 |}
           sample_window).
  reflexivity.
Defined.

(** X11.  Requests left in the queue by an earlier failure are not lost:
    when the window exists, the next [queue_signal_connect] connects them
    first, in their order, and then the new request, provided they all
    resolve, and leaves the queue empty. *)
Theorem leftover_requests_connected_first (a : app) (w : pyobj)
    (conns : list connection) (spec : str) (cb : callback) (c : connection) :
  window a = Some w ->
  Forall2 (fun r c => resolve w r = Ok c) (signal_connect_queue a) conns ->
  resolve w (spec, cb) = Ok c ->
  queue_signal_connect spec cb a = (progressed [] (conns ++ [c]) a, None).
Proof.
  destruct a as [wa qa ca ra]. simpl. intros -> HF Hr.
  unfold queue_signal_connect. simpl.
  rewrite (process_all_resolved _ (conns ++ [c])); [reflexivity|].
  simpl. apply Forall2_app; [exact HF|]. constructor; [exact Hr|constructor].
Qed.

Lemma leftover_requests_connected_first_witness :
  queue_signal_connect (py "main_widget::main-widget-ready") 5
    {| window := Some sample_window;
       signal_connect_queue :=
         [(py "main_widget.login_widget::user-logged-in", 2)];
       connections := []; app_ready := 0 |}
  = ({| window := Some sample_window; signal_connect_queue := [];
        connections := [Connection 2 (py "user-logged-in") 2;
                        Connection 1 (py "main-widget-ready") 5];
        app_ready := 0 |}, None).
Proof.
  apply (leftover_requests_connected_first
           {| window := Some sample_window;
              signal_connect_queue :=
                [(py "main_widget.login_widget::user-logged-in", 2)];
              connections := []; app_ready := 0 |}
           sample_window [Connection 2 (py "user-logged-in") 2]
           (py "main_widget::main-widget-ready") 5
           (Connection 1 (py "main-widget-ready") 5)).
  - reflexivity.
  - repeat constructor.
  - vm_compute. reflexivity.
Defined.

(** X12.  An activation that fails while processing the queue has
    nevertheless installed the window and has not emitted [app-ready].
    Every later activation keeps that window, does not process the queue
    again, so the requests left in it stay unconnected, and emits
    [app-ready]. *)
Theorem failed_activation_keeps_the_window (a a1 : app) (w : pyobj)
    (e : exn) :
  window a = None ->
  do_activate w a = (a1, Some e) ->
  window a1 = Some w
  /\ app_ready a1 = app_ready a
  /\ forall w' : pyobj,
       do_activate w' a1
       = ({| window := Some w;
             signal_connect_queue := signal_connect_queue a1;
             connections := connections a1;
             app_ready := S (app_ready a1) |}, None).
Proof.
  intros Hw. unfold do_activate. rewrite Hw.
  set (aw := {| window := Some w;
                signal_connect_queue := signal_connect_queue a;
                connections := connections a; app_ready := app_ready a |}).
  destruct (process_loop_outcome (signal_connect_queue aw) aw eq_refl)
    as (_ & _ & _ & _ & _ & Hwin & Hrd & _).
  fold (_process_signal_connect_queue aw) in Hwin, Hrd.
  destruct (_process_signal_connect_queue aw) as [a2 [e'|]] eqn:E;
    [|discriminate].
  intros H. inversion H; subst a2 e'; clear H. simpl in Hwin, Hrd.
  split; [exact Hwin|]. split; [exact Hrd|].
  intros w'. now rewrite Hwin.
Qed.

Lemma failed_activation_keeps_the_window_witness :
  let a := {| window := None;
              signal_connect_queue :=
                [(py "application_name::notify", 1);
                 (py "main_widget::main-widget-ready", 2)];
              connections := []; app_ready := 0 |} in
  let a1 := {| window := Some sample_window;
               signal_connect_queue :=
                 [(py "main_widget::main-widget-ready", 2)];
               connections := []; app_ready := 0 |} in
  window a1 = Some sample_window
  /\ app_ready a1 = app_ready a
  /\ forall w' : pyobj,
       do_activate w' a1
       = ({| window := Some sample_window;
             signal_connect_queue := signal_connect_queue a1;
             connections := connections a1;
             app_ready := S (app_ready a1) |}, None).
Proof.
  apply (failed_activation_keeps_the_window
           {| window := None;
              signal_connect_queue :=
                [(py "application_name::notify", 1);
                 (py "main_widget::main-widget-ready", 2)];
              connections := []; app_ready := 0 |}
           {| window := Some sample_window;
              signal_connect_queue :=
                [(py "main_widget::main-widget-ready", 2)];
              connections := []; app_ready := 0 |}
           sample_window AssertionError).
  - reflexivity.
  - vm_compute. reflexivity.
Defined.


(** **** Reading a signal spec *)

Lemma split_from_skip (sep u : str) :
  forall (cur t : str),
    split_from sep (length u) cur (u ++ t) = split_from sep 0 cur t.
Proof.
  induction u as [|x u IH]; intros cur t; [reflexivity|].
  simpl. apply IH.
Qed.

Lemma split_from_without (c0 : N) (sep' text : str) :
  without c0 text ->
  forall cur rest : str,
    split_from (c0 :: sep') 0 cur (text ++ rest)
    = split_from (c0 :: sep') 0 (cur ++ text) rest.
Proof.
  induction 1 as [|x text Hx _ IH]; intros cur rest.
  - now rewrite app_nil_r.
  - cbn [List.app split_from startswith].
    replace (c0 =? x)%N with false by (symmetry; now apply N.eqb_neq).
    cbn [andb]. rewrite IH, <- app_assoc. reflexivity.
Qed.

Lemma split_without (c0 : N) (sep' text : str) :
  without c0 text -> split (c0 :: sep') text = [text].
Proof.
  intros H. unfold split.
  rewrite <- (app_nil_r text) at 1. now rewrite split_from_without.
Qed.

Lemma split_at_separator (c0 : N) (sep' before after : str) :
  without c0 before ->
  split (c0 :: sep') (before ++ (c0 :: sep') ++ after)
  = before :: split (c0 :: sep') after.
Proof.
  intros H. unfold split. rewrite split_from_without by exact H.
  cbn [List.app split_from startswith]. rewrite N.eqb_refl. cbn [andb].
  assert (Hs : forall t, startswith sep' (sep' ++ t) = true).
  { induction sep' as [|y sep'' IH]; intros t; [reflexivity|].
    simpl. now rewrite N.eqb_refl, IH. }
  rewrite Hs.
  replace (length (c0 :: sep') - 1)%nat with (length sep') by (simpl; lia).
  now rewrite split_from_skip.
Qed.

Lemma join_cons (sep piece piece' : str) (rest : list str) :
  join sep (piece :: piece' :: rest)
  = piece ++ sep ++ join sep (piece' :: rest).
Proof. reflexivity. Qed.

Lemma split_join (c0 : N) (sep' : str) (pieces : list str) :
  pieces <> [] ->
  Forall (without c0) pieces ->
  split (c0 :: sep') (join (c0 :: sep') pieces) = pieces.
Proof.
  intros Hne HF. induction HF as [|piece rest Hp HF IH]; [congruence|].
  destruct rest as [|piece' rest].
  - simpl. now apply split_without.
  - rewrite join_cons, split_at_separator by exact Hp.
    rewrite IH by discriminate. reflexivity.
Qed.

Lemma split_join_path (widget_path : list str) :
  widget_path <> [] ->
  Forall (without 46) widget_path ->
  split (py ".") (join (py ".") widget_path) = widget_path.
Proof. apply (split_join 46 []). Qed.

(** X13.  A signal spec written as the attribute names joined by dots,
    a double colon and the signal name is read back as those attributes and
    that signal, when there is at least one attribute, no attribute name
    has a dot or a colon, and the signal name has no colon: resolving it
    follows exactly these attributes from the window, and then asserts and
    connects. *)
Theorem signal_spec_is_read_back (w : pyobj) (widget_path : list str)
    (signal_name : str) (cb : callback) :
  widget_path <> [] ->
  Forall (without 46) widget_path ->
  Forall (without 58) widget_path ->
  without 58 signal_name ->
  split (py "::") (signal_spec_of widget_path signal_name)
  = [join (py ".") widget_path; signal_name]
  /\ split (py ".") (join (py ".") widget_path) = widget_path
  /\ resolve w (signal_spec_of widget_path signal_name, cb)
     = match follow w widget_path with
       | Raise e => Raise e
       | Ok (Plain _) => Raise AssertionError
       | Ok (GObject oid signals _) => connect oid signals signal_name cb
       end.
Proof.
  intros Hne Hdot Hcolon Hsig.
  assert (Hj : without 58 (join (py ".") widget_path)).
  { clear Hne Hdot. induction Hcolon as [|seg rest Hseg _ IH]; [constructor|].
    destruct rest as [|seg' rest]; [exact Hseg|].
    cbn [join]. unfold without in *. apply Forall_app. split; [exact Hseg|].
    apply Forall_app. split; [|exact IH].
    repeat constructor. discriminate. }
  assert (Hsplit : split (py "::") (signal_spec_of widget_path signal_name)
                   = [join (py ".") widget_path; signal_name]).
  { unfold signal_spec_of. change (py "::") with ([58%N; 58%N] : str).
    rewrite split_at_separator by exact Hj.
    now rewrite split_without. }
  split; [exact Hsplit|]. split; [now apply split_join_path|].
  unfold resolve. rewrite Hsplit, split_join_path by assumption.
  reflexivity.
Qed.

Lemma signal_spec_is_read_back_witness :
  split (py "::")
    (signal_spec_of [py "main_widget"; py "login_widget"] (py "user-logged-in"))
  = [join (py ".") [py "main_widget"; py "login_widget"]; py "user-logged-in"]
  /\ split (py ".") (join (py ".") [py "main_widget"; py "login_widget"])
     = [py "main_widget"; py "login_widget"]
  /\ resolve sample_window
       (signal_spec_of [py "main_widget"; py "login_widget"]
          (py "user-logged-in"), 4)
     = match follow sample_window [py "main_widget"; py "login_widget"] with
       | Raise e => Raise e
       | Ok (Plain _) => Raise AssertionError
       | Ok (GObject oid signals _) =>
           connect oid signals (py "user-logged-in") 4
       end.
Proof.
  apply (signal_spec_is_read_back sample_window
           [py "main_widget"; py "login_widget"] (py "user-logged-in") 4).
  - discriminate.
  - repeat constructor; discriminate.
  - repeat constructor; discriminate.
  - repeat constructor; discriminate.
Defined.

End AppMore.

(** * Further properties of the settings *)

Module SettingsMore.
Import Py Settings.

(** X14.  The two setters do not disturb each other: applied in either
    order they leave the same configuration; and of two uses of a setter
    the later one decides the attribute, as if the earlier had not
    happened. *)
Theorem setters_compose (upper : str -> str) (c : Controller)
    (startup startup' : value) (servers servers' : str) :
  app_configuration
    (set_tray_pinned_servers upper servers
       (set_connect_at_app_startup startup c))
  = app_configuration
      (set_connect_at_app_startup startup
         (set_tray_pinned_servers upper servers c))
  /\ app_configuration
       (set_connect_at_app_startup startup'
          (set_connect_at_app_startup startup c))
     = app_configuration (set_connect_at_app_startup startup' c)
  /\ app_configuration
       (set_tray_pinned_servers upper servers'
          (set_tray_pinned_servers upper servers c))
     = app_configuration (set_tray_pinned_servers upper servers' c).
Proof.
  simpl. split; [|split].
  - now apply insert_insert_ne.
  - apply insert_insert_eq.
  - apply insert_insert_eq.
Qed.

(** X15.  A getter reads back what its setter wrote: the auto-connect
    value itself, or [Off] when [None] was set; the pinned servers joined
    by a comma and a space.  Reading changes no attribute, and each getter
    is blind to the other setter. *)
Theorem getters_read_back (upper : str -> str) (c : Controller)
    (startup : value) (servers : str) :
  (get_connect_at_app_startup (set_connect_at_app_startup startup c)).1
  = Ok (match startup with VNone => VStr (py "Off") | _ => startup end)
  /\ (get_tray_pinned_servers (set_tray_pinned_servers upper servers c)).1
     = Ok (join (py ", ") (clean_servers upper (split (py ",") servers)))
  /\ app_configuration (get_connect_at_app_startup c).2 = app_configuration c
  /\ app_configuration (get_tray_pinned_servers c).2 = app_configuration c
  /\ (get_connect_at_app_startup (set_tray_pinned_servers upper servers c)).1
     = (get_connect_at_app_startup c).1
  /\ (get_tray_pinned_servers (set_connect_at_app_startup startup c)).1
     = (get_tray_pinned_servers c).1.
Proof.
  unfold get_connect_at_app_startup, get_tray_pinned_servers. simpl.
  rewrite !lookup_insert_eq, !lookup_insert_ne by discriminate.
  repeat split.
  - now destruct startup.
  - now destruct (app_configuration c !! "connect_at_app_startup"%string)
      as [[]|].
  - now destruct (app_configuration c !! "tray_pinned_servers"%string)
      as [[]|].
  - now destruct (app_configuration c !! "connect_at_app_startup"%string)
      as [[]|].
  - now destruct (app_configuration c !! "tray_pinned_servers"%string)
      as [[]|].
Qed.


(** X16.  The list the [tray_pinned_servers] setter stores holds exactly
    the non-empty results of stripping and upper-casing the pieces between
    the commas: never an empty code, and no more codes than pieces. *)
Theorem stored_codes_are_cleaned_pieces (upper : str -> str)
    (pieces : list str) (code : str) :
  (In code (clean_servers upper pieces)
   <-> code <> []
       /\ exists piece, In piece pieces /\ code = upper (strip piece))
  /\ (length (clean_servers upper pieces) <= length pieces)%nat.
Proof.
  split.
  - induction pieces as [|piece pieces IH]; simpl.
    + split; [tauto|]. intros (_ & p & Hin & _). destruct Hin.
    + destruct (upper (strip piece)) as [|ch cleaned] eqn:E.
      * rewrite IH. split.
        -- intros (Hne & p & Hin & Hc). split; [exact Hne|].
           exists p. split; [now right|exact Hc].
        -- intros (Hne & p & [-> | Hin] & Hc); [congruence|].
           split; [exact Hne|]. now exists p.
      * simpl. rewrite IH. split.
        -- intros [<- | (Hne & p & Hin & Hc)].
           ++ split; [discriminate|]. exists piece. split; [now left|].
              now symmetry.
           ++ split; [exact Hne|]. exists p. split; [now right|exact Hc].
        -- intros (Hne & p & [-> | Hin] & Hc).
           ++ left. congruence.
           ++ right. split; [exact Hne|]. now exists p.
  - induction pieces as [|piece pieces IH]; simpl; [lia|].
    destruct (upper (strip piece)); simpl; lia.
Qed.

Lemma split_comma_blank (text : str) :
  blank text ->
  forall cur : str,
    forallb isspace cur = true ->
    Forall (fun piece => forallb isspace piece = true)
           (split_from (py ",") 0 cur text).
Proof.
  change (py ",") with ([44%N] : str).
  induction 1 as [|ch text Hch _ IH]; intros cur Hcur.
  - simpl. now constructor.
  - cbn [split_from startswith]. destruct (44 =? ch)%N eqn:E; cbn [andb].
    + constructor; [exact Hcur|]. simpl. now apply IH.
    + apply IH. rewrite forallb_app, Hcur. simpl.
      destruct Hch as [Hsp|Hcomma]; [now rewrite Hsp|].
      subst ch. now rewrite N.eqb_refl in E.
Qed.

Lemma clean_blank_pieces (upper : str -> str) (pieces : list str) :
  upper [] = [] ->
  Forall (fun piece => forallb isspace piece = true) pieces ->
  clean_servers upper pieces = [].
Proof.
  intros Hup. induction 1 as [|piece pieces Hp _ IH]; [reflexivity|].
  simpl. apply LoginFacts.strip_nil in Hp. now rewrite Hp, Hup.
Qed.

(** X17.  A text of whitespace and commas only, the empty text among
    them, makes the [tray_pinned_servers] setter store the empty list
    (upper-casing the empty string gives the empty string). *)
Theorem blank_text_clears_pinned_servers (upper : str -> str)
    (c : Controller) (text : str) :
  upper [] = [] ->
  blank text ->
  app_configuration (set_tray_pinned_servers upper text c)
  = <["tray_pinned_servers"%string := VList []]> (app_configuration c).
Proof.
  intros Hup Hb. simpl. f_equal. f_equal.
  apply clean_blank_pieces; [exact Hup|].
  now apply split_comma_blank.
Qed.

Lemma blank_text_clears_pinned_servers_witness :
  let c := {| app_configuration :=
                {[ "tray_pinned_servers"%string := VList [py "NL#42"] ]};
              accesses := [] |} in
  app_configuration (set_tray_pinned_servers ascii_upper (py " , ,,  ") c)
  = <["tray_pinned_servers"%string := VList []]> (app_configuration c).
Proof.
  intros c.
  apply (blank_text_clears_pinned_servers ascii_upper c (py " , ,,  ")).
  - reflexivity.
  - unfold blank.
    repeat (apply Forall_cons;
            split; [first [left; reflexivity|right; reflexivity]|]).
    apply Forall_nil_2.
Defined.

Lemma join_comma_space_cons (code code' : str) (rest : list str) :
  (32%N :: join (py ", ") (code' :: rest))
  = join (py ", ") ((32%N :: code') :: rest).
Proof. now destruct rest. Qed.

Lemma split_shown_codes (codes : list str) :
  Forall (Forall (fun ch => ch <> 44%N)) codes ->
  forall code : str,
    Forall (fun ch => ch <> 44%N) code ->
    split (py ",") (join (py ", ") (code :: codes))
    = code :: map (cons 32%N) codes.
Proof.
  change (py ",") with ([44%N] : str).
  induction 1 as [|code' codes Hc' _ IH]; intros code Hc.
  - simpl. now apply AppMore.split_without.
  - rewrite AppMore.join_cons. change (py ", ") with ([44%N] ++ [32%N] : str).
    rewrite <- app_assoc, AppMore.split_at_separator by exact Hc.
    cbn [List.app map]. f_equal.
    change ([44%N] ++ [32%N] : str) with (py ", ").
    rewrite (join_comma_space_cons code), IH; [reflexivity|].
    constructor; [discriminate|exact Hc'].
Qed.

Lemma clean_shown_codes (upper : str -> str) (codes : list str) :
  Forall (clean_code upper) codes ->
  clean_servers upper (map (cons 32%N) codes) = codes.
Proof.
  induction 1 as [|code codes (Hne & _ & Hs & Hu) _ IH]; [reflexivity|].
  cbn [map clean_servers].
  replace (strip (32%N :: code)) with (strip code) by reflexivity.
  rewrite Hs, Hu, IH. now destruct code.
Qed.

(** X18.  Leaving an entry without editing it keeps the configuration.
    The text the pinned-servers entry shows for a stored list of clean
    codes is stored back as that list; the text the auto-connect entry
    shows for [None] ([Off]) or for a clean value is stored back as that
    value.  ([upper] maps the empty string to itself and [Off] to [OFF].) *)
Theorem unedited_entries_keep_configuration (upper : str -> str)
    (c : Controller) :
  upper [] = [] ->
  upper (py "Off") = py "OFF" ->
  (forall (codes : list str) (shown : str),
      app_configuration c !! "tray_pinned_servers"%string
      = Some (VList codes) ->
      Forall (clean_code upper) codes ->
      (get_tray_pinned_servers c).1 = Ok shown ->
      app_configuration (set_tray_pinned_servers upper shown c)
      = app_configuration c)
  /\ (forall (stored : value) (shown : str),
        app_configuration c !! "connect_at_app_startup"%string
        = Some stored ->
        normal_startup upper stored ->
        (get_connect_at_app_startup c).1 = Ok (VStr shown) ->
        app_configuration (on_focus_outside_connect_entry upper shown c)
        = app_configuration c).
Proof.
  intros Hnil Hoff. split.
  - intros codes shown Hstored Hclean.
    unfold get_tray_pinned_servers. simpl. rewrite Hstored. simpl.
    intros H. inversion H; subst shown; clear H.
    apply insert_id. rewrite Hstored. f_equal. f_equal.
    destruct Hclean as [|code codes Hc Hcs].
    + simpl. change (strip []) with ([] : str). now rewrite Hnil.
    + rewrite split_shown_codes.
      * cbn [clean_servers]. destruct Hc as (Hne & _ & Hs & Hu).
        rewrite Hs, Hu, clean_shown_codes by exact Hcs. now destruct code.
      * eapply Forall_impl; [exact Hcs|]. now intros ? (_ & ? & _).
      * now destruct Hc as (_ & ? & _).
  - intros stored shown Hstored Hnormal.
    unfold get_connect_at_app_startup, on_focus_outside_connect_entry.
    simpl. rewrite Hstored.
    destruct stored as [|s|l]; simpl in *; [| |destruct Hnormal].
    + intros H. inversion H; subst shown; clear H.
      replace (strip (py "Off")) with (py "Off") by reflexivity.
      rewrite Hoff. simpl. now apply insert_id.
    + intros H. inversion H; subst shown; clear H.
      destruct Hnormal as (Hs & Hu & Hne). rewrite Hs, Hu.
      unfold str_eqb. case_bool_decide; [congruence|]. now apply insert_id.
Qed.

Lemma unedited_entries_keep_configuration_witness :
  let c := {| app_configuration :=
                {[ "connect_at_app_startup"%string := VNone;
                   "tray_pinned_servers"%string :=
                     VList [py "NL#42"; py "JP"] ]};
              accesses := [] |} in
  app_configuration (set_tray_pinned_servers ascii_upper (py "NL#42, JP") c)
  = app_configuration c
  /\ app_configuration (on_focus_outside_connect_entry ascii_upper (py "Off") c)
     = app_configuration c.
Proof.
  destruct (unedited_entries_keep_configuration ascii_upper
              {| app_configuration :=
                   {[ "connect_at_app_startup"%string := VNone;
                      "tray_pinned_servers"%string :=
                        VList [py "NL#42"; py "JP"] ]};
                 accesses := [] |} eq_refl eq_refl) as [Htray Hconnect].
  split.
  - apply (Htray [py "NL#42"; py "JP"] (py "NL#42, JP")).
    + reflexivity.
    + repeat constructor; discriminate.
    + reflexivity.
  - apply (Hconnect VNone (py "Off")).
    + reflexivity.
    + exact I.
    + reflexivity.
Defined.

End SettingsMore.


(** * Further properties of the validation *)

Module VersionsMore.
Import Versions VersionsFacts.

Lemma at_end_cases (s : str) : at_end s = true -> s = [] \/ s = [10%N].
Proof.
  destruct s as [|c [|? ?]]; simpl; try discriminate; [now left|].
  intros H. apply N.eqb_eq in H. subst. now right.
Qed.

Ltac literal_or_next s text :=
  let E := fresh "E" in
  let A := fresh "A" in
  destruct (Py.startswith text s) eqn:E;
  [ apply startswith_app in E;
    destruct (at_end (drop (length text) s)) eqn:A;
    [ apply at_end_cases in A; destruct A as [A|A]; rewrite A in E;
      rewrite E; vm_compute; tauto
    | clear E A ]
  | clear E ].

(** X19.  The [urgency] validator accepts exactly [low], [medium] and
    [urgent], and the [stability] validator exactly [unstable] and
    [stable], each also with one newline at its end, which [$] lets
    through; on a value that is not a string they raise [TypeError]. *)
Theorem urgency_and_stability_accepted (v : value) :
  (re_matches URGENCY_RE v = Ok true
   <-> exists s, v = VStr s
        /\ In s [py "low"; py "medium"; py "urgent";
                 py "low" ++ [10%N]; py "medium" ++ [10%N];
                 py "urgent" ++ [10%N]])
  /\ (re_matches STABILITY_RE v = Ok true
      <-> exists s, v = VStr s
           /\ In s [py "unstable"; py "stable";
                    py "unstable" ++ [10%N]; py "stable" ++ [10%N]])
  /\ (is_str v = false ->
      re_matches URGENCY_RE v = Raise TypeError
      /\ re_matches STABILITY_RE v = Raise TypeError).
Proof.
  split; [|split].
  - split.
    + destruct v as [s| | | |]; try discriminate. simpl. intros H.
      exists s. split; [reflexivity|].
      assert (Hm : is_Some (re_match URGENCY_RE s)).
      { inversion H as [Hb]. now apply bool_decide_eq_true in Hb. }
      clear H. unfold re_match, URGENCY_RE in Hm. cbn [matches Nat.eqb] in Hm.
      literal_or_next s (py "low").
      all: literal_or_next s (py "medium").
      all: literal_or_next s (py "urgent").
      all: destruct Hm as [? Hm]; discriminate Hm.
    + intros (s & -> & Hin). simpl in Hin.
      repeat (destruct Hin as [<-|Hin]; [vm_compute; reflexivity|]).
      destruct Hin.
  - split.
    + destruct v as [s| | | |]; try discriminate. simpl. intros H.
      exists s. split; [reflexivity|].
      assert (Hm : is_Some (re_match STABILITY_RE s)).
      { inversion H as [Hb]. now apply bool_decide_eq_true in Hb. }
      clear H. unfold re_match, STABILITY_RE in Hm.
      cbn [matches Nat.eqb] in Hm.
      literal_or_next s (py "unstable").
      all: literal_or_next s (py "stable").
      all: destruct Hm as [? Hm]; discriminate Hm.
    + intros (s & -> & Hin). simpl in Hin.
      repeat (destruct Hin as [<-|Hin]; [vm_compute; reflexivity|]).
      destruct Hin.
  - destruct v; simpl; try discriminate; now split.
Qed.


Lemma versions_re_dotted_stop (d : dotted) (c : N) (rest : str) :
  well_formed d -> digit c = false -> lower c = false ->
  re_match VERSIONS_RE (dotted_text d ++ c :: rest)
  = Some (length (dotted_text d), [(1%nat, dotted_text d)]).
Proof.
  intros Hd Hdigit Hlower. unfold re_match, VERSIONS_RE.
  rewrite matches_Seq, matches_Group.
  apply release_part_dotted; [exact Hd|exact Hdigit|].
  rewrite matches_Opt, matches_Group, matches_Seq. cbn [matches].
  rewrite Hlower, Nat.sub_0_r, take_app_length. reflexivity.
Qed.

(** X20.  [rebuild_version] does not read its own output back: for a
    version of the usual shape with a pre-release part, rebuilt with a
    delimiter that starts with neither a digit nor a lowercase letter
    (such as [~] and [-]), rebuilding the result again, with any
    delimiter, gives the release triple alone; the pre-release part is
    lost without an error. *)
Theorem rebuild_version_twice_drops_prerelease (d : dotted)
    (letters number : str) (c : N) (delim delim' : str) :
  well_formed d ->
  letters <> [] -> forallb lower letters = true -> digits number ->
  digit c = false -> lower c = false ->
  exists rebuilt,
    rebuild_version (dotted_text d ++ letters ++ number) (c :: delim)
    = Ok rebuilt
    /\ rebuilt = dotted_text d ++ (c :: delim) ++ letters ++ number
    /\ rebuild_version rebuilt delim' = Ok (dotted_text d).
Proof.
  intros Hd Hl Ll Hn Hdigit Hlower.
  exists (dotted_text d ++ (c :: delim) ++ letters ++ number).
  split; [now apply rebuild_version_dotted|]. split; [reflexivity|].
  unfold rebuild_version. cbn [List.app].
  now rewrite versions_re_dotted_stop.
Qed.

Lemma rebuild_version_twice_drops_prerelease_witness :
  exists rebuilt,
    rebuild_version (py "4.5.6" ++ py "rc" ++ py "1") (py "~") = Ok rebuilt
    /\ rebuilt = py "4.5.6" ++ py "~" ++ py "rc" ++ py "1"
    /\ rebuild_version rebuilt (py "~") = Ok (py "4.5.6").
Proof.
  apply (rebuild_version_twice_drops_prerelease
           {| major := py "4"; sep1 := 46; minor := py "5"; sep2 := 46;
              patch := py "6" |} (py "rc") (py "1") 126 [] (py "~")).
  - vm_compute. repeat split; discriminate.
  - discriminate.
  - reflexivity.
  - split; [discriminate|reflexivity].
  - reflexivity.
  - reflexivity.
Defined.

Section FirstFailure.

Variable strptime : str -> bool.





End FirstFailure.


End VersionsMore.
(** * Further properties of the packaging script *)

Module ChangelogFacts.
Import Versions Changelog VersionsFacts.

Example calendar_examples :
  map (fun s => option_map (fun dt =>
                  (strftime_c dt (py "%a, %d %b %Y %H:%M:00"),
                   strftime_c dt (py "%a %b %d %Y"),
                   strftime_c dt (py "%Y-%m-%d"))) (parse_ascii s))
    [py "2023/01/15 10:30"; py "2024/02/29 23:59"; py "0999/1/1 1:01";
     py "2023/02/30 10:00"]
  = [Some (py "Sun, 15 Jan 2023 10:30:00", py "Sun Jan 15 2023",
           py "2023-01-15");
     Some (py "Thu, 29 Feb 2024 23:59:00", py "Thu Feb 29 2024",
           py "2024-02-29");
     Some (py "Tue, 01 Jan 999 01:01:00", py "Tue Jan 01 999",
           py "999-01-01");
     None].
Proof. vm_compute. reflexivity. Qed.

Example build_mkd_example :
  build_mkd date_time parse_ascii strftime_c true
    [[(py "version", VStr (py "4.5.6rc1"));
      (py "time", VStr (py "2023/01/15 10:30"));
      (py "description", VList [VStr (py "Fix login."); VStr (py "Add tray.")])]]
  = (Some (py "# Changelog (autogenerated)" ++ newline ++ newline
           ++ py "## [4.5.6-rc1] - 2023-01-15" ++ newline
           ++ py "- Fix login." ++ newline ++ py "- Add tray." ++ newline
           ++ newline), None).
Proof. vm_compute. reflexivity. Qed.

(** A description with a lone surrogate: the entry of the first release is
    in the file, the one of the second is not, and the third release is
    not looked at. *)
Example build_mkd_surrogate_example :
  build_mkd date_time parse_ascii strftime_c true
    [[(py "version", VStr (py "4.5.6"));
      (py "time", VStr (py "2023/01/15 10:30"));
      (py "description", VList [])];
     [(py "version", VStr (py "4.5.5"));
      (py "time", VStr (py "2023/01/10 09:00"));
      (py "description", VList [VStr (py "Fix " ++ [55296%N])])];
     [(py "version", VStr (py "4.5.4"))]]
  = (Some (py "# Changelog (autogenerated)" ++ newline ++ newline
           ++ py "## [4.5.6] - 2023-01-15" ++ newline ++ newline ++ newline),
     Some UnicodeEncodeError).
Proof. vm_compute. reflexivity. Qed.

Example build_deb_example :
  build_deb date_time parse_ascii strftime_c (fun _ => []) true
    [[(py "version", VStr (py "4.5.6rc1"));
      (py "time", VStr (py "2023/01/15 10:30"));
      (py "author", VStr (py "Proton AG"));
      (py "email", VStr (py "opensource@proton.me"));
      (py "urgency", VStr (py "medium"));
      (py "stability", VStr (py "unstable"));
      (py "description", VList [VStr (py "Fix login.")])]]
    (py "proton-vpn-gtk-app")
  = (Some (py "proton-vpn-gtk-app (4.5.6~rc1) unstable; urgency=medium"
           ++ newline ++ newline ++ py "  * Fix login." ++ newline ++ newline
           ++ py " -- Proton AG <opensource@proton.me>  Sun, 15 Jan 2023 10:30:00"
           ++ newline ++ newline), None).
Proof. vm_compute. reflexivity. Qed.


(** **** What validation gives to the builders *)

Lemma get_version (P : str -> bool) :
  get (NECESSARY_FIELDS P) (py "version")
  = Some (fun v => re_matches VERSIONS_RE v).
Proof. reflexivity. Qed.

Lemma get_time (P : str -> bool) :
  get (NECESSARY_FIELDS P) (py "time")
  = Some (fun v => validate_date_time P v).
Proof. reflexivity. Qed.

Lemma get_description (P : str -> bool) :
  exists validator,
    get (NECESSARY_FIELDS P) (py "description") = Some validator
    /\ forall v, validator v = Ok true ->
                 exists items, v = VList items /\ forallb is_str items = true.
Proof.
  eexists. split; [reflexivity|].
  intros [| | | |items] H; simpl in H; try discriminate.
  exists items. split; [reflexivity|]. now inversion H.
Qed.

Lemma passes_version (P : str -> bool) (v : value) :
  item_passes P (py "version", v) ->
  exists s, v = VStr s /\ is_Some (re_match VERSIONS_RE s).
Proof.
  intros (validator & Hget & Hv). cbn [fst snd] in Hget, Hv.
  rewrite get_version in Hget. inversion Hget; subst validator.
  destruct v as [s| | | |]; simpl in Hv; try discriminate.
  exists s. split; [reflexivity|]. inversion Hv as [Hb].
  now apply bool_decide_eq_true in Hb.
Qed.

Lemma passes_time (P : str -> bool) (v : value) :
  item_passes P (py "time", v) -> exists s, v = VStr s /\ P s = true.
Proof.
  intros (validator & Hget & Hv). cbn [fst snd] in Hget, Hv.
  rewrite get_time in Hget. inversion Hget; subst validator.
  destruct v as [s| | | |]; simpl in Hv; try discriminate.
  exists s. split; [reflexivity|]. now inversion Hv.
Qed.

Lemma passes_description (P : str -> bool) (v : value) :
  item_passes P (py "description", v) ->
  exists items, v = VList items /\ forallb is_str items = true.
Proof.
  intros (validator & Hget & Hv). cbn [fst snd] in Hget, Hv.
  destruct (get_description P) as (validator' & Hget' & Hspec).
  rewrite Hget' in Hget. inversion Hget; subst validator'.
  now apply Hspec.
Qed.

Lemma matched_version_rebuilds (s delim : str) :
  is_Some (re_match VERSIONS_RE s) ->
  exists rebuilt, rebuild_version s delim = Ok rebuilt.
Proof.
  intros [[stop g] H]. unfold rebuild_version. rewrite H.
  destruct (group 2 g) as [[|c pre]|]; eexists; reflexivity.
Qed.

Lemma strings_of (items : list value) :
  forallb is_str items = true -> items = map VStr (map text_of items).
Proof.
  induction items as [|[s| | | |] items IH]; simpl; try discriminate;
    [reflexivity|].
  intros H. now rewrite <- IH.
Qed.

(** X22.  In a manifest that [validate_versions] lets through, the fields
    the builders compute with are safe to use wherever they are present:
    a [version] is a string on which [rebuild_version] does not raise,
    whatever the delimiter; a [time] is a string that [strptime] parses;
    a [description] is a list of strings. *)
Theorem validated_fields_are_usable (P : str -> bool)
    (versions : list release) (release : release) :
  validate_versions P versions = Ok tt ->
  In release versions ->
  (forall v, get release (py "version") = Some v ->
     exists s, v = VStr s
       /\ forall delim, exists rebuilt, rebuild_version s delim = Ok rebuilt)
  /\ (forall v, get release (py "time") = Some v ->
        exists s, v = VStr s /\ P s = true)
  /\ (forall v, get release (py "description") = Some v ->
        exists lines, v = VList (map VStr lines)).
Proof.
  intros Hok Hin. apply validate_versions_ok in Hok.
  rewrite List.Forall_forall in Hok. specialize (Hok release Hin).
  rewrite List.Forall_forall in Hok.
  split; [|split]; intros v Hget; apply get_In in Hget;
    specialize (Hok _ Hget).
  - apply passes_version in Hok as (s & -> & Hm). exists s.
    split; [reflexivity|]. intros delim. now apply matched_version_rebuilds.
  - now apply passes_time in Hok.
  - apply passes_description in Hok as (items & -> & Hs).
    exists (map text_of items). now rewrite <- strings_of.
Qed.

Lemma validated_fields_are_usable_witness :
  (forall v,
      get [(py "version", VStr (py "4.5.6rc1"));
           (py "time", VStr (py "2023/01/15 10:30"))] (py "version")
      = Some v ->
      exists s, v = VStr s
        /\ forall delim, exists rebuilt, rebuild_version s delim = Ok rebuilt)
  /\ (forall v,
        get [(py "version", VStr (py "4.5.6rc1"));
             (py "time", VStr (py "2023/01/15 10:30"))] (py "time")
        = Some v ->
        exists s, v = VStr s /\ strptime_ascii s = true)
  /\ (forall v,
        get [(py "version", VStr (py "4.5.6rc1"));
             (py "time", VStr (py "2023/01/15 10:30"))] (py "description")
        = Some v ->
        exists lines, v = VList (map VStr lines)).
Proof.
  apply (validated_fields_are_usable strptime_ascii
           [[(py "version", VStr (py "4.5.6rc1"));
             (py "time", VStr (py "2023/01/15 10:30"))]]
           [(py "version", VStr (py "4.5.6rc1"));
            (py "time", VStr (py "2023/01/15 10:30"))]).
  - vm_compute. reflexivity.
  - now left.
Defined.


(** **** The builders on a validated manifest *)

Section ValidatedBuilders.

Variable datetime : Type.
Variable strptime : str -> option datetime.
Variable strftime : datetime -> str -> str.
Variable str_of : value -> str.

Let validated (release : release) : Prop :=
  Forall (item_passes (accepts strptime)) release.

Lemma validated_item (release : release) (key : str) (v : value) :
  validated release -> get release key = Some v ->
  item_passes (accepts strptime) (key, v).
Proof.
  intros Hv Hget. apply get_In in Hget.
  unfold validated in Hv. rewrite List.Forall_forall in Hv. now apply Hv.
Qed.

Lemma description_text_validated (bullet : str) (release : release) :
  validated release ->
  done_or_missing (description_text bullet release) release
    (py "description").
Proof.
  intros Hv. unfold description_text, getitem, done_or_missing, bind.
  destruct (get release (py "description")) as [v|] eqn:Hget; [|now split].
  apply (validated_item _ _ _ Hv), passes_description in Hget
    as (items & -> & Hs).
  simpl. rewrite Hs. discriminate.
Qed.

Lemma version_text_validated (delim : str) (release : release) :
  validated release ->
  done_or_missing (version_text delim release) release (py "version").
Proof.
  intros Hv. unfold version_text, getitem, done_or_missing, bind.
  destruct (get release (py "version")) as [v|] eqn:Hget; [|now split].
  apply (validated_item _ _ _ Hv), passes_version in Hget as (s & -> & Hm).
  destruct (matched_version_rebuilds s delim Hm) as [rebuilt ->].
  discriminate.
Qed.

Lemma time_text_validated (format : str) (release : release) :
  validated release ->
  done_or_missing (time_text datetime strptime strftime format release)
    release (py "time").
Proof.
  intros Hv. unfold time_text, getitem, done_or_missing, bind.
  destruct (get release (py "time")) as [v|] eqn:Hget; [|now split].
  apply (validated_item _ _ _ Hv), passes_time in Hget as (s & -> & Hp).
  unfold accepts in Hp. destruct (strptime s); [discriminate|discriminate Hp].
Qed.

Lemma format_field_done_or_missing (release : release) (key : str) :
  done_or_missing (format_field str_of release key) release key.
Proof.
  unfold format_field, getitem, done_or_missing, bind.
  destruct (get release key); [discriminate|now split].
Qed.

Ltac next_field H key :=
  let o := fresh "o" in
  let f := fresh "f" in
  let Hk := fresh "Hk" in
  unfold done_or_missing in H;
  match type of H with
  | match ?x with _ => _ end =>
      destruct x as [o|f];
      [ cbn [bind]
      | destruct H as [-> Hk]; cbn [bind];
        exists key; split; [simpl; tauto|now split] ]
  end.

Lemma mkd_entry_validated (release : release) :
  validated release ->
  match mkd_entry datetime strptime strftime release with
  | Done _ => complete MKD_FIELDS release
  | Failed f =>
      exists key, In key MKD_FIELDS /\ f = KeyError key
                  /\ get release key = None
  end.
Proof.
  intros Hv. unfold mkd_entry.
  pose proof (description_text_validated (py "- ") release Hv) as H1.
  pose proof (version_text_validated (py "-") release Hv) as H2.
  pose proof (time_text_validated (py "%Y-%m-%d") release Hv) as H3.
  next_field H1 (py "description"). next_field H2 (py "version").
  next_field H3 (py "time").
  repeat constructor; assumption.
Qed.

Lemma deb_entry_validated (name : str) (release : release) :
  validated release ->
  match deb_entry datetime strptime strftime str_of name release with
  | Done _ => complete DEB_FIELDS release
  | Failed f =>
      exists key, In key DEB_FIELDS /\ f = KeyError key
                  /\ get release key = None
  end.
Proof.
  intros Hv. unfold deb_entry.
  pose proof (description_text_validated (py "  * ") release Hv) as H1.
  pose proof (version_text_validated (py "~") release Hv) as H2.
  pose proof (time_text_validated (py "%a, %d %b %Y %H:%M:00") release Hv)
    as H3.
  pose proof (format_field_done_or_missing release (py "stability")) as H4.
  pose proof (format_field_done_or_missing release (py "urgency")) as H5.
  pose proof (format_field_done_or_missing release (py "author")) as H6.
  pose proof (format_field_done_or_missing release (py "email")) as H7.
  next_field H1 (py "description"). next_field H2 (py "version").
  next_field H3 (py "time"). next_field H4 (py "stability").
  next_field H5 (py "urgency"). next_field H6 (py "author").
  next_field H7 (py "email").
  repeat constructor; assumption.
Qed.

Lemma rpm_entry_validated (release : release) :
  validated release ->
  match rpm_entry datetime strptime strftime str_of release with
  | Done _ => complete RPM_FIELDS release
  | Failed f =>
      exists key, In key RPM_FIELDS /\ f = KeyError key
                  /\ get release key = None
  end.
Proof.
  intros Hv. unfold rpm_entry.
  pose proof (description_text_validated (py "- ") release Hv) as H1.
  pose proof (version_text_validated (py "~") release Hv) as H2.
  pose proof (time_text_validated (py "%a %b %d %Y") release Hv) as H3.
  pose proof (format_field_done_or_missing release (py "author")) as H6.
  pose proof (format_field_done_or_missing release (py "email")) as H7.
  next_field H1 (py "description"). next_field H2 (py "version").
  next_field H3 (py "time"). next_field H6 (py "author").
  next_field H7 (py "email").
  repeat constructor; assumption.
Qed.

(** The loop, for an entry that on a validated release is done or fails
    on a missing field. *)
Lemma write_entries_validated (entry : release -> outcome str)
    (fields : list str) (blank_line : bool) :
  (forall release,
      validated release ->
      match entry release with
      | Done _ => complete fields release
      | Failed f =>
          exists key, In key fields /\ f = KeyError key
                      /\ get release key = None
      end) ->
  forall (versions : list release) (written : str),
    Forall validated versions ->
    entries_written entry fields blank_line versions written
      (write_entries entry blank_line versions written).
Proof.
  intros Hentry versions. unfold entries_written.
  induction versions as [|release versions IH]; intros written Hall.
  - exists [], [], []. simpl. rewrite app_nil_r.
    repeat split; constructor.
  - inversion Hall as [|? ? Hv Hvs]; subst.
    specialize (Hentry release Hv). cbn [write_entries].
    destruct (entry release) as [text|f] eqn:E; cbn [bind].
    + unfold print. destruct (encodable text) eqn:Henc.
      * destruct (IH (if blank_line
                      then (written ++ text ++ newline) ++ newline
                      else written ++ text ++ newline) Hvs)
          as (done & texts & rest & Hsplit & HF & Hw & Hout).
        exists (release :: done), (text :: texts), rest.
        split; [now rewrite Hsplit|]. split; [now constructor|].
        split.
        { rewrite Hw. unfold printed. cbn [map concat].
          destruct blank_line; now rewrite <- ?app_assoc, ?app_nil_r. }
        destruct (write_entries entry blank_line versions _).2;
          [exact Hout|].
        destruct Hout as [-> Hc]. split; [reflexivity|now constructor].
      * exists [], [], (release :: versions). simpl. rewrite app_nil_r.
        split; [reflexivity|]. split; [constructor|]. split; [reflexivity|].
        exists release, versions. split; [reflexivity|]. right.
        now exists text.
    + destruct Hentry as (key & Hin & -> & Hmiss).
      exists [], [], (release :: versions). simpl. rewrite app_nil_r.
      split; [reflexivity|]. split; [constructor|]. split; [reflexivity|].
      exists release, versions. split; [reflexivity|]. left.
      now exists key.
Qed.

(** A loop that found every field and could encode every entry did not
    fail. *)
Lemma complete_and_printable (entry : release -> outcome str)
    (fields : list str) (blank_line : bool) (versions : list release)
    (written : str) (result : str * option failure) :
  entries_written entry fields blank_line versions written result ->
  Forall (complete fields) versions ->
  Forall (printable entry) versions ->
  result.2 = None.
Proof.
  intros (done & texts & rest & -> & _ & _ & Hout) Hall Hprint.
  destruct result.2 as [f|]; [|reflexivity].
  destruct Hout as (r & rest' & -> & Hwhy).
  apply Forall_app in Hall as [_ Hall]. inversion Hall as [|? ? Hc _]; subst.
  apply Forall_app in Hprint as [_ Hprint].
  inversion Hprint as [|? ? Hp _]; subst.
  destruct Hwhy as [(key & Hin & _ & Hmiss)|(text & Htext & Henc & _)].
  - unfold complete in Hc. rewrite List.Forall_forall in Hc.
    now destruct (Hc key Hin).
  - rewrite (Hp text Htext) in Henc. discriminate Henc.
Qed.

Lemma validated_versions (versions : list release) :
  validate_versions (accepts strptime) versions = Ok tt ->
  Forall validated versions.
Proof. intros H. now apply validate_versions_ok in H. Qed.

(** X23.  [build_mkd] on a manifest that [validate_versions] lets through.
    When the file cannot be opened it is left untouched.  Otherwise the
    title is written and then the entries of the releases in their order,
    until a release lacks [description], [version] or [time], or has an
    entry that UTF-8 cannot encode (a lone surrogate in it): that
    [KeyError] and that [UnicodeEncodeError] are the only exceptions of
    the loop, the entries of the releases before it are in the file, and
    nothing of the later ones.  When every release has the three fields
    and an entry that can be encoded, the loop does not fail. *)
Theorem build_mkd_on_validated_manifest (versions : list release) :
  validate_versions (accepts strptime) versions = Ok tt ->
  build_mkd datetime strptime strftime false versions
  = (None, Some OpenError)
  /\ exists result : str * option failure,
       build_mkd datetime strptime strftime true versions
       = (Some result.1, result.2)
       /\ entries_written (mkd_entry datetime strptime strftime) MKD_FIELDS
            false versions
            (py "# Changelog (autogenerated)" ++ newline ++ newline) result
       /\ (Forall (complete MKD_FIELDS) versions ->
           Forall (printable (mkd_entry datetime strptime strftime))
                  versions ->
           result.2 = None).
Proof.
  intros Hok. apply validated_versions in Hok.
  split; [reflexivity|].
  pose proof (write_entries_validated _ MKD_FIELDS false mkd_entry_validated
                versions (py "# Changelog (autogenerated)" ++ newline
                          ++ newline) Hok) as Hw.
  unfold build_mkd.
  destruct (write_entries _ false versions _) as [written f].
  exists (written, f). split; [reflexivity|]. split; [exact Hw|].
  now apply complete_and_printable with (1 := Hw).
Qed.

(** X24.  [build_deb] on a manifest that [validate_versions] lets through.
    When the file cannot be opened it is left untouched.  Otherwise the
    entries of the releases are written in their order, until a release
    lacks one of [description], [version], [time], [stability], [urgency],
    [author] and [email], or has an entry that UTF-8 cannot encode: that
    [KeyError] and that [UnicodeEncodeError] are the only exceptions of
    the loop, the entries of the releases before it are in the file, and
    nothing of the later ones.  When every release has the seven fields
    and an entry that can be encoded, the loop does not fail. *)
Theorem build_deb_on_validated_manifest (versions : list release)
    (name : str) :
  validate_versions (accepts strptime) versions = Ok tt ->
  build_deb datetime strptime strftime str_of false versions name
  = (None, Some OpenError)
  /\ exists result : str * option failure,
       build_deb datetime strptime strftime str_of true versions name
       = (Some result.1, result.2)
       /\ entries_written (deb_entry datetime strptime strftime str_of name)
            DEB_FIELDS false versions [] result
       /\ (Forall (complete DEB_FIELDS) versions ->
           Forall (printable
                     (deb_entry datetime strptime strftime str_of name))
                  versions ->
           result.2 = None).
Proof.
  intros Hok. apply validated_versions in Hok.
  split; [reflexivity|].
  pose proof (write_entries_validated _ DEB_FIELDS false
                (deb_entry_validated name) versions [] Hok) as Hw.
  unfold build_deb.
  destruct (write_entries _ false versions _) as [written f].
  exists (written, f). split; [reflexivity|]. split; [exact Hw|].
  now apply complete_and_printable with (1 := Hw).
Qed.

(** X25.  [build_rpm] reads and rebuilds the version of the first release
    before it opens the file: with no release it raises [IndexError], and
    on a validated manifest whose first release has no [version] it raises
    that [KeyError], the file being untouched in both cases.  Otherwise, on
    a validated manifest, the version of the first release is rebuilt and
    the file is opened, or left untouched when it cannot be.  Then either
    the template cannot be formatted, or the header cannot be encoded, and
    the file is left empty; or the header is written and then the entries
    of the releases in their order, each with an empty line behind it,
    until a release lacks [description], [version], [time], [author] or
    [email], or has an entry that UTF-8 cannot encode.  When every release
    has the five fields and an entry that can be encoded, the loop does
    not fail. *)
Theorem build_rpm_on_validated_manifest
    (render : value -> str -> option str) (writable : bool)
    (versions : list release) :
  validate_versions (accepts strptime) versions = Ok tt ->
  match versions with
  | [] =>
      build_rpm datetime strptime strftime str_of render writable versions
      = (None, Some IndexError)
  | first :: _ =>
      match get first (py "version") with
      | None =>
          build_rpm datetime strptime strftime str_of render writable
            versions
          = (None, Some (KeyError (py "version")))
      | Some upstream_version =>
          exists version,
            version_text (py "~") first = Done version
            /\ if writable then
                 match render upstream_version version with
                 | None =>
                     build_rpm datetime strptime strftime str_of render
                       writable versions
                     = (Some [], Some TemplateError)
                 | Some header =>
                     if encodable header then
                       exists result : str * option failure,
                         build_rpm datetime strptime strftime str_of render
                           writable versions
                         = (Some result.1, result.2)
                         /\ entries_written
                              (rpm_entry datetime strptime strftime str_of)
                              RPM_FIELDS true versions (header ++ newline)
                              result
                         /\ (Forall (complete RPM_FIELDS) versions ->
                             Forall (printable
                                       (rpm_entry datetime strptime strftime
                                          str_of))
                                    versions ->
                             result.2 = None)
                     else
                       build_rpm datetime strptime strftime str_of render
                         writable versions
                       = (Some [], Some UnicodeEncodeError)
                 end
               else
                 build_rpm datetime strptime strftime str_of render writable
                   versions
                 = (None, Some OpenError)
      end
  end.
Proof.
  intros Hok. apply validated_versions in Hok.
  destruct versions as [|first rest]; [reflexivity|].
  unfold build_rpm, getitem.
  inversion Hok as [|? ? Hfirst _]; subst.
  pose proof (version_text_validated (py "~") first Hfirst) as Hv.
  unfold done_or_missing in Hv.
  destruct (get first (py "version")) as [upstream|] eqn:Hget; [|reflexivity].
  destruct (version_text (py "~") first) as [version|f];
    [|now destruct Hv as [_ Hv]].
  exists version. split; [reflexivity|].
  destruct writable; [|reflexivity].
  destruct (render upstream version) as [header|]; [|reflexivity].
  unfold print. destruct (encodable header); [|reflexivity].
  pose proof (write_entries_validated _ RPM_FIELDS true rpm_entry_validated
                (first :: rest) (header ++ newline) Hok) as Hw.
  change ([] ++ header ++ newline) with (header ++ newline).
  destruct (write_entries (rpm_entry datetime strptime strftime str_of) true
              (first :: rest) (header ++ newline)) as [written f].
  exists (written, f). split; [reflexivity|]. split; [exact Hw|].
  now apply complete_and_printable with (1 := Hw).
Qed.

End ValidatedBuilders.


Lemma build_mkd_on_validated_manifest_witness :
  let versions :=
    [[(py "version", VStr (py "4.5.6rc1"));
      (py "time", VStr (py "2023/01/15 10:30"));
      (py "description", VList [VStr (py "Fix login.")])];
     [(py "version", VStr (py "4.5.5"));
      (py "time", VStr (py "2023/01/10 09:00"));
      (py "description", VList [VStr (py "Fix " ++ [55296%N])])]] in
  build_mkd date_time parse_ascii strftime_c false versions
  = (None, Some OpenError)
  /\ exists result : str * option failure,
       build_mkd date_time parse_ascii strftime_c true versions
       = (Some result.1, result.2)
       /\ entries_written (mkd_entry date_time parse_ascii strftime_c)
            MKD_FIELDS false versions
            (py "# Changelog (autogenerated)" ++ newline ++ newline) result
       /\ (Forall (complete MKD_FIELDS) versions ->
           Forall (printable (mkd_entry date_time parse_ascii strftime_c))
                  versions ->
           result.2 = None).
Proof.
  intros versions.
  apply (build_mkd_on_validated_manifest date_time parse_ascii strftime_c
           versions).
  vm_compute. reflexivity.
Defined.

Lemma build_deb_on_validated_manifest_witness :
  let versions :=
    [[(py "version", VStr (py "4.5.6rc1"));
      (py "time", VStr (py "2023/01/15 10:30"));
      (py "author", VStr (py "Proton AG"));
      (py "email", VStr (py "opensource@proton.me"));
      (py "urgency", VStr (py "medium"));
      (py "stability", VStr (py "unstable"));
      (py "description", VList [VStr (py "Fix login.")])]] in
  build_deb date_time parse_ascii strftime_c (fun _ => []) false versions
    (py "proton-vpn-gtk-app")
  = (None, Some OpenError)
  /\ exists result : str * option failure,
       build_deb date_time parse_ascii strftime_c (fun _ => []) true versions
         (py "proton-vpn-gtk-app")
       = (Some result.1, result.2)
       /\ entries_written
            (deb_entry date_time parse_ascii strftime_c (fun _ => [])
               (py "proton-vpn-gtk-app"))
            DEB_FIELDS false versions [] result
       /\ (Forall (complete DEB_FIELDS) versions ->
           Forall (printable
                     (deb_entry date_time parse_ascii strftime_c
                        (fun _ => []) (py "proton-vpn-gtk-app")))
                  versions ->
           result.2 = None).
Proof.
  intros versions.
  apply (build_deb_on_validated_manifest date_time parse_ascii strftime_c
           (fun _ => []) versions (py "proton-vpn-gtk-app")).
  vm_compute. reflexivity.
Defined.

Lemma build_rpm_on_validated_manifest_witness :
  let versions :=
    [[(py "version", VStr (py "4.5.6rc1"));
      (py "time", VStr (py "2023/01/15 10:30"));
      (py "author", VStr (py "Proton AG"));
      (py "email", VStr (py "opensource@proton.me"));
      (py "description", VList [VStr (py "Fix login.")])]] in
  let render := fun (_ : value) version => Some (py "Version: " ++ version) in
  exists version,
    version_text (py "~")
      [(py "version", VStr (py "4.5.6rc1"));
       (py "time", VStr (py "2023/01/15 10:30"));
       (py "author", VStr (py "Proton AG"));
       (py "email", VStr (py "opensource@proton.me"));
       (py "description", VList [VStr (py "Fix login.")])]
    = Done version
    /\ if encodable (py "Version: " ++ version) then
         exists result : str * option failure,
           build_rpm date_time parse_ascii strftime_c (fun _ => []) render
             true versions
           = (Some result.1, result.2)
           /\ entries_written
                (rpm_entry date_time parse_ascii strftime_c (fun _ => []))
                RPM_FIELDS true versions
                ((py "Version: " ++ version) ++ newline) result
           /\ (Forall (complete RPM_FIELDS) versions ->
               Forall (printable
                         (rpm_entry date_time parse_ascii strftime_c
                            (fun _ => [])))
                      versions ->
               result.2 = None)
       else
         build_rpm date_time parse_ascii strftime_c (fun _ => []) render
           true versions
         = (Some [], Some UnicodeEncodeError).
Proof.
  intros versions render.
  pose proof (build_rpm_on_validated_manifest date_time parse_ascii
                strftime_c (fun _ => []) render true versions) as H.
  cbn beta iota in H. apply H. vm_compute. reflexivity.
Defined.

Example build_rpm_example :
  build_rpm date_time parse_ascii strftime_c (fun _ => [])
    (fun _ version => Some (py "Version: " ++ version)) true
    [[(py "version", VStr (py "4.5.6rc1"));
      (py "time", VStr (py "2023/01/15 10:30"));
      (py "author", VStr (py "Proton AG"));
      (py "email", VStr (py "opensource@proton.me"));
      (py "description", VList [VStr (py "Fix login.")])]]
  = (Some (py "Version: 4.5.6~rc1" ++ newline
           ++ py "* Sun Jan 15 2023 Proton AG <opensource@proton.me> 4.5.6~rc1"
           ++ newline ++ py "- Fix login." ++ newline ++ newline), None).
Proof. vm_compute. reflexivity. Qed.

End ChangelogFacts.
